(** * jigsaw-generate: a shallow embedding of the piece-assignment and
      entry-formatting code of [jigsaw-generate.py]

    The Python functions [losub], [make_entry], [make_entry_util],
    [img2tex], [cardnum], [make_triangles] and [make_squares] are
    transcribed as Rocq functions over an explicit program state.

    Conventions.
    - The language and its library are those of CPython 3.7 or later.
    - A Python [str] is a [string]: a sequence of code points below 256.
    - A Python exception is a constructor of [exn]; a computation that
      raises keeps the state it had reached, as the interpreter does.
    - The module-level variable [exists_hidden], the text written to
      [sys.stderr], the random generator and the two dictionaries [dsubs]
      and [dsubsmd] (created once by [generate_jigsaw] and mutated in
      place by every function they are passed to) are fields of [world].
    - The generator is an oracle: a list of raw values still to be
      delivered, and a count of the draws made so far. *)

From Stdlib Require Import Ascii String ZArith.
From stdpp Require Import base tactics option list strings pretty gmap.

Local Open Scope Z_scope.

(** ** Exceptions and outcomes *)

Inductive exn : Type :=
| NameError (name : string)
| KeyError (key : string)
| IndexError
| TypeError
| ValueError
| ReError (msg : string)
| SystemExit (msg : string)
| OutOfFuel.

Inductive result (A : Type) : Type :=
| Ok (a : A)
| Raise (e : exn).
Arguments Ok {A} a.
Arguments Raise {A} e.

Definition is_ok {A} (r : result A) : bool :=
  match r with Ok _ => true | Raise _ => false end.

(** ** The program state *)

Record world : Type := World {
  rng : list nat;
  draws : nat;
  exists_hidden : bool;
  stderr : list string;
  dsubs : gmap string string;
  dsubsmd : gmap string string
}.

Definition M (A : Type) : Type := world -> result A * world.

Definition ret {A} (a : A) : M A := fun w => (Ok a, w).

Definition raise {A} (e : exn) : M A := fun w => (Raise e, w).

Definition bind {A B} (m : M A) (f : A -> M B) : M B :=
  fun w =>
    match m w with
    | (Ok a, w') => f a w'
    | (Raise e, w') => (Raise e, w')
    end.

Definition lift {A} (r : result A) : M A := fun w => (r, w).

Declare Scope py_scope.
Delimit Scope py_scope with py.
Notation "x <- m ;; k" := (bind m (fun x => k))
  (at level 100, m at next level, right associativity) : py_scope.
Notation "m ;;; k" := (bind m (fun _ => k))
  (at level 100, right associativity) : py_scope.
Local Open Scope py_scope.

(** [try: body except: handler] with a bare [except]. *)
Definition try_except {A} (body : M A) (handler : M A) : M A :=
  fun w =>
    match body w with
    | (Ok a, w') => (Ok a, w')
    | (Raise _, w') => handler w'
    end.

(** [print(s, file=sys.stderr)]: the text and the newline [print] adds. *)
Definition newline : string := String "010"%char EmptyString.
Definition dquote : string := String "034"%char EmptyString.
Definition backslash : string := String "092"%char EmptyString.

Definition print_stderr (s : string) : M unit :=
  fun w =>
    (Ok tt, {| rng := rng w; draws := draws w;
               exists_hidden := exists_hidden w;
               stderr := stderr w ++ [s +:+ newline];
               dsubs := dsubs w; dsubsmd := dsubsmd w |}).

Definition set_exists_hidden (b : bool) : M unit :=
  fun w =>
    (Ok tt, {| rng := rng w; draws := draws w;
               exists_hidden := b;
               stderr := stderr w;
               dsubs := dsubs w; dsubsmd := dsubsmd w |}).

(** ** Python values *)

(** A YAML scalar as PyYAML loads it. *)
Inductive scalar : Type :=
| SStr (s : string)
| SInt (z : Z)
| SBool (b : bool)
| SNone.

(** A content entry: a bare scalar, or a dict (keys in insertion order). *)
Inductive entry : Type :=
| Bare (v : scalar)
| Dict (d : list (string * scalar)).

Fixpoint dict_get (d : list (string * scalar)) (k : string) : option scalar :=
  match d with
  | [] => None
  | (k', v) :: d' => if String.eqb k' k then Some v else dict_get d' k
  end.

(** [str(v)] *)
Definition py_str (v : scalar) : string :=
  match v with
  | SStr s => s
  | SInt z => pretty z
  | SBool true => "True"
  | SBool false => "False"
  | SNone => "None"
  end.

(** Truth value of [v] in a condition. *)
Definition truthy (v : scalar) : bool :=
  match v with
  | SStr s => negb (String.eqb s EmptyString)
  | SInt z => negb (z =? 0)
  | SBool b => b
  | SNone => false
  end.

(** [l[i]] on a list: negative indices count from the end. *)
Definition py_index {A} (l : list A) (i : Z) : result A :=
  let n := Z.of_nat (length l) in
  let k := if i <? 0 then i + n else i in
  if k <? 0 then Raise IndexError
  else match l !! Z.to_nat k with
       | Some x => Ok x
       | None => Raise IndexError
       end.

(** ** Characters *)

(** Python's notion of white space on code points below 256, used by
    [int()] when it strips its argument and by [\s] in a [str] pattern. *)
Definition is_space (c : ascii) : bool :=
  let n := nat_of_ascii c in
  ((9 <=? n) && (n <=? 13) || (28 <=? n) && (n <=? 32)
   || (n =? 133) || (n =? 160))%nat.

Definition is_digit (c : ascii) : bool :=
  let n := nat_of_ascii c in ((48 <=? n) && (n <=? 57))%nat.

Definition digit_val (c : ascii) : Z := Z.of_nat (nat_of_ascii c) - 48.

Definition is_ascii_letter (c : ascii) : bool :=
  let n := nat_of_ascii c in
  ((65 <=? n) && (n <=? 90) || (97 <=? n) && (n <=? 122))%nat.

Fixpoint lstrip (s : string) : string :=
  match s with
  | String c s' => if is_space c then lstrip s' else s
  | EmptyString => EmptyString
  end.

Fixpoint rstrip (s : string) : string :=
  match s with
  | String c s' =>
      match rstrip s' with
      | EmptyString => if is_space c then EmptyString else String c EmptyString
      | t => String c t
      end
  | EmptyString => EmptyString
  end.

(** Decimal digits, single underscores allowed between digits. *)
Fixpoint parse_digits (s : string) (acc : Z) (after_digit : bool) : option Z :=
  match s with
  | EmptyString => if after_digit then Some acc else None
  | String c s' =>
      if is_digit c then parse_digits s' (10 * acc + digit_val c) true
      else if Ascii.eqb c "_" && after_digit then parse_digits s' acc false
      else None
  end.

(** [int(s)] on a [str]. *)
Definition int_of_string (s : string) : result Z :=
  let body := rstrip (lstrip s) in
  let parsed :=
    match body with
    | String "-" t => Z.opp <$> parse_digits t 0 false
    | String "+" t => parse_digits t 0 false
    | t => parse_digits t 0 false
    end in
  match parsed with
  | Some z => Ok z
  | None => Raise ValueError
  end.

(** [int(v)] *)
Definition py_int (v : scalar) : result Z :=
  match v with
  | SInt z => Ok z
  | SBool b => Ok (if b then 1 else 0)
  | SStr s => int_of_string s
  | SNone => Raise TypeError
  end.

(** [s[1:]] *)
Definition str_tail (s : string) : string :=
  match s with
  | String _ t => t
  | EmptyString => EmptyString
  end.

(** [s[0]] *)
Definition str_head (s : string) : result ascii :=
  match s with
  | String c _ => Ok c
  | EmptyString => Raise IndexError
  end.

(** ** Global definitions of the script *)

Definition sizes : list string :=
  [ "\tiny"; "\scriptsize"; "\footnotesize"; "\small"; "\normalsize";
    "\large"; "\Large"; "\LARGE"; "\huge"; "\Huge" ]%string.

Definition normalsize : Z := 4.

(** ** The image pattern and replacement templates of [re] *)

(** [span_to c s]: the longest prefix of [s] free of [c], and what follows
    the first [c]; [None] when [c] does not occur. *)
Fixpoint span_to (c : ascii) (s : string) : option (string * string) :=
  match s with
  | EmptyString => None
  | String a s' =>
      if Ascii.eqb a c then Some (EmptyString, s')
      else match span_to c s' with
           | Some (p, r) => Some (String a p, r)
           | None => None
           end
  end.

(** A match of [img_re] at the start of [s]: an exclamation mark, a
    bracketed caption free of closing brackets, then a parenthesised path
    free of closing parentheses.  The result holds the two groups and the
    text after the match.  Both starred classes stop at the first closing
    character, so no shorter choice can match. *)
Definition img_re_match (s : string) : option (string * string * string) :=
  match s with
  | String "!"%char (String "["%char s1) =>
      match span_to "]" s1 with
      | Some (caption, String "("%char s2) =>
          match span_to ")" s2 with
          | Some (img, rest) => Some (caption, img, rest)
          | None => None
          end
      | _ => None
      end
  | _ => None
  end.

(** [img_re.search(s)]: the text before the leftmost match, and the match. *)
Fixpoint img_re_search (s : string)
  : option (string * (string * string * string)) :=
  match img_re_match s with
  | Some m => Some (EmptyString, m)
  | None =>
      match s with
      | EmptyString => None
      | String c s' =>
          match img_re_search s' with
          | Some (pre, m) => Some (String c pre, m)
          | None => None
          end
      end
  end.

(** A parsed replacement template: literal text and group references. *)
Inductive tpl_item : Type :=
| TLit (s : string)
| TGroup (n : nat).

Definition is_octdigit (c : ascii) : bool :=
  let n := nat_of_ascii c in ((48 <=? n) && (n <=? 55))%nat.

Definition chr (n : Z) : string :=
  String (ascii_of_nat (Z.to_nat n)) EmptyString.

Fixpoint all_digits (s : string) : bool :=
  match s with
  | EmptyString => true
  | String c s' => is_digit c && all_digits s'
  end.

Fixpoint digits_val (s : string) (acc : Z) : Z :=
  match s with
  | EmptyString => acc
  | String c s' => digits_val s' (10 * acc + digit_val c)
  end.

Fixpoint all_word_chars (s : string) : bool :=
  match s with
  | EmptyString => true
  | String c s' =>
      (is_ascii_letter c || is_digit c || Ascii.eqb c "_") && all_word_chars s'
  end.

Definition is_identifier (s : string) : bool :=
  match s with
  | EmptyString => false
  | String c _ => negb (is_digit c) && all_word_chars s
  end.

(** Number of groups of [img_re]. *)
Definition img_re_groups : nat := 2.

Definition addgroup (n : Z) (k : result (list tpl_item))
  : result (list tpl_item) :=
  if Z.of_nat img_re_groups <? n then Raise (ReError "invalid group reference")
  else match k with
       | Ok items => Ok (TGroup (Z.to_nat n) :: items)
       | Raise e => Raise e
       end.

Definition addlit (s : string) (k : result (list tpl_item))
  : result (list tpl_item) :=
  match k with
  | Ok items => Ok (TLit s :: items)
  | Raise e => Raise e
  end.

(** The known single-letter escapes of a template. *)
Definition template_escape (c : ascii) : option string :=
  if Ascii.eqb c "a" then Some (chr 7)
  else if Ascii.eqb c "b" then Some (chr 8)
  else if Ascii.eqb c "f" then Some (chr 12)
  else if Ascii.eqb c "n" then Some (chr 10)
  else if Ascii.eqb c "r" then Some (chr 13)
  else if Ascii.eqb c "t" then Some (chr 9)
  else if Ascii.eqb c "v" then Some (chr 11)
  else if Ascii.eqb c "092" then Some backslash
  else None.

(** [parse_template] of CPython's [re] (3.7 and later) for a pattern
    without named groups: a backslash followed by an ASCII letter that is
    no known escape is an error. *)
Fixpoint parse_template (fuel : nat) (s : string) : result (list tpl_item) :=
  match fuel with
  | O => Raise OutOfFuel
  | S fuel =>
      match s with
      | EmptyString => Ok []
      | String "092"%char EmptyString =>
          Raise (ReError "bad escape (end of pattern)")
      | String "092"%char (String c s1) =>
          if Ascii.eqb c "g" then
            match s1 with
            | String "<"%char s2 =>
                match span_to ">" s2 with
                | Some (name, s3) =>
                    if String.eqb name EmptyString then
                      Raise (ReError "missing group name")
                    else if all_digits name then
                      addgroup (digits_val name 0) (parse_template fuel s3)
                    else if is_identifier name then Raise IndexError
                    else Raise (ReError "bad character in group name")
                | None => Raise (ReError "missing >, unterminated name")
                end
            | _ => Raise (ReError "missing <")
            end
          else if Ascii.eqb c "0" then
            match s1 with
            | String d1 (String d2 s3) =>
                if is_octdigit d1 && is_octdigit d2 then
                  addlit (chr ((8 * digit_val d1 + digit_val d2) mod 256))
                         (parse_template fuel s3)
                else if is_octdigit d1 then
                  addlit (chr (digit_val d1))
                         (parse_template fuel (String d2 s3))
                else addlit (chr 0) (parse_template fuel s1)
            | String d1 EmptyString =>
                if is_octdigit d1 then addlit (chr (digit_val d1)) (Ok [])
                else addlit (chr 0) (parse_template fuel s1)
            | EmptyString => addlit (chr 0) (Ok [])
            end
          else if is_digit c then
            match s1 with
            | String d1 s2 =>
                if is_digit d1 then
                  match s2 with
                  | String d2 s3 =>
                      if is_octdigit c && is_octdigit d1 && is_octdigit d2 then
                        let v := 64 * digit_val c + 8 * digit_val d1
                                 + digit_val d2 in
                        if 255 <? v then
                          Raise (ReError "octal escape value out of range")
                        else addlit (chr v) (parse_template fuel s3)
                      else addgroup (10 * digit_val c + digit_val d1)
                                    (parse_template fuel s2)
                  | EmptyString =>
                      addgroup (10 * digit_val c + digit_val d1) (Ok [])
                  end
                else addgroup (digit_val c) (parse_template fuel s1)
            | EmptyString => addgroup (digit_val c) (Ok [])
            end
          else
            match template_escape c with
            | Some lit => addlit lit (parse_template fuel s1)
            | None =>
                if is_ascii_letter c then
                  Raise (ReError ("bad escape " +:+ backslash
                                  +:+ String c EmptyString))
                else addlit (backslash +:+ String c EmptyString)
                            (parse_template fuel s1)
            end
      | String c s1 => addlit (String c EmptyString) (parse_template fuel s1)
      end
  end.

(** Expansion of a parsed template against a match (group 0 is the whole
    matched text). *)
Fixpoint expand_template (items : list tpl_item) (g0 g1 g2 : string) : string :=
  match items with
  | [] => EmptyString
  | TLit s :: rest => s +:+ expand_template rest g0 g1 g2
  | TGroup n :: rest =>
      (match n with
       | O => g0
       | S O => g1
       | _ => g2
       end) +:+ expand_template rest g0 g1 g2
  end.

(** [img_re.sub(repl, text, count=1)] for a template [repl] that holds a
    backslash: the template is parsed first, then the leftmost match is
    replaced by its expansion. *)
Definition img_re_sub1 (repl text : string) : result string :=
  match parse_template (S (String.length repl)) repl with
  | Raise e => Raise e
  | Ok items =>
      match img_re_search text with
      | None => Ok text
      | Some (pre, (caption, img, rest)) =>
          let whole := "![" +:+ caption +:+ "](" +:+ img +:+ ")" in
          Ok (pre +:+ expand_template items whole caption img +:+ rest)
      end
  end.

(** The loop of [img2tex], on the text already converted by [str]. *)
Fixpoint img2tex_loop (fuel : nat) (text : string) : result string :=
  match img_re_search text with
  | None => Ok text
  | Some (_, (caption, img, _)) =>
      let repl :=
        if negb (String.eqb caption EmptyString)
        then "\imagecap{" +:+ img +:+ "}{" +:+ caption +:+ "}"
        else "\image{" +:+ img +:+ "}" in
      match img_re_sub1 repl text with
      | Raise e => Raise e
      | Ok text' =>
          match fuel with
          | O => Raise OutOfFuel
          | S fuel => img2tex_loop fuel text'
          end
      end
  end.

Definition img2tex (text : scalar) : result string :=
  let text := py_str text in
  img2tex_loop (String.length text) text.

(** ** Entry formatting *)

(** [cardnum(n)] *)
Definition cardnum (n : Z) : string :=
  if (n =? 6) || (n =? 9) then "\underline{" +:+ pretty n +:+ "}"
  else pretty n.

Definition rmap {A B} (f : A -> B) (r : result A) : result B :=
  match r with
  | Ok a => Ok (f a)
  | Raise e => Raise e
  end.

(** The marker put before highlighted text: an asterisk in parentheses,
    then a space. *)
Definition hidden_mark : string := "(" +:+ String "042"%char ") ".

(** [make_entry_util(text, size, mark_hidden, style)]; the value [None]
    stands for Python's [None], returned when no branch matches [style]. *)
Definition make_entry_util (text : scalar) (size : string)
    (mark_hidden : bool) (style : string) : result (option string) :=
  if mark_hidden then
    if String.eqb style "table" then
      rmap (fun t => Some (hidden_mark +:+ t)) (img2tex text)
    else if String.eqb style "tikz" then
      rmap (fun t => Some ("{hidden}{" +:+ size +:+ " " +:+ t +:+ "}"))
           (img2tex text)
    else if String.eqb style "md" then
      Ok (Some (" " +:+ hidden_mark +:+ py_str text +:+ " "))
    else Ok None
  else
    if String.eqb style "table" then
      rmap Some (img2tex text)
    else if String.eqb style "tikz" then
      rmap (fun t => Some ("{regular}{" +:+ size +:+ " " +:+ t +:+ "}"))
           (img2tex text)
    else if String.eqb style "md" then
      Ok (Some (" " +:+ (if truthy text then py_str text else "(BLANK)")
                +:+ " "))
    else Ok None.

(** [sizes[size]], where [size] is [None] when it is no integer. *)
Definition sizes_at (size : option Z) : result string :=
  match size with
  | Some z => py_index sizes z
  | None => Raise TypeError
  end.

(** The body of the [try] block of [make_entry]. *)
Definition shifted_size (defaultsize : option Z) (sz : scalar)
  : result (option Z) :=
  match py_int sz with
  | Raise e => Raise e
  | Ok n =>
      match defaultsize with
      | None => Raise TypeError
      | Some ds =>
          let size := ds + n in
          let size := if size <? 0 then 0 else size in
          let size :=
            if Z.of_nat (length sizes) <=? size
            then Z.of_nat (length sizes) - 1 else size in
          Ok (Some size)
      end
  end.

(** [for f in entry: print('  %s: %s\n' % (f, entry[f]), file=sys.stderr)] *)
Fixpoint print_fields (keys d : list (string * scalar)) : M unit :=
  match keys with
  | [] => ret tt
  | (f, _) :: keys' =>
      print_stderr ("  " +:+ f +:+ ": "
                    +:+ from_option py_str EmptyString (dict_get d f)
                    +:+ newline) ;;;
      print_fields keys' d
  end.

(** [make_entry(entry, defaultsize, hide, style)] *)
Definition make_entry (e : entry) (defaultsize : option Z)
    (hide style : string) : M (option string) :=
  match e with
  | Dict d =>
      match dict_get d "text" with
      | None =>
          print_stderr ("No " +:+ dquote +:+ "text" +:+ dquote
                        +:+ " field in entry in data file.  Rest of data is:"
                        +:+ newline) ;;;
          print_fields d d ;;;
          lift (make_entry_util (SStr EmptyString) EmptyString false style)
      | Some text =>
          size <-
            match dict_get d "size" with
            | Some sz =>
                try_except
                  (lift (shifted_size defaultsize sz))
                  (print_stderr
                     ("Unrecognised size entry for text " +:+ py_str text
                      +:+ ":" +:+ newline +:+ "size = " +:+ py_str sz
                      +:+ newline +:+ "Defaulting to default size"
                      +:+ newline) ;;;
                   ret defaultsize)
            | None => ret defaultsize
            end ;;
          if from_option truthy false (dict_get d "hidden") then
            set_exists_hidden true ;;;
            if String.eqb hide "hide" then
              lift (make_entry_util (SStr EmptyString) EmptyString false style)
            else if String.eqb hide "mark" then
              s <- lift (sizes_at size) ;;
              lift (make_entry_util text s true style)
            else if String.eqb hide "ignore" then
              s <- lift (sizes_at size) ;;
              lift (make_entry_util text s false style)
            else
              raise (SystemExit "This should not happen: bad hide parameter")
          else
            s <- lift (sizes_at size) ;;
            lift (make_entry_util text s false style)
      end
  | Bare v =>
      s <- lift (sizes_at defaultsize) ;;
      lift (make_entry_util v s false style)
  end.

(** ** Template substitution *)

(** [span p s]: the longest prefix of [s] whose characters satisfy [p], and
    the rest. *)
Fixpoint span (p : ascii -> bool) (s : string) : string * string :=
  match s with
  | EmptyString => (EmptyString, EmptyString)
  | String c s' =>
      if p c then let '(a, b) := span p s' in (String c a, b)
      else (EmptyString, s)
  end.

Definition not_space (c : ascii) : bool := negb (is_space c).

(** The text after a leading [:>], when [s] starts with it. *)
Definition after_close (s : string) : option string :=
  match s with
  | String ":"%char (String ">"%char t) => Some t
  | _ => None
  end.

(** The last occurrence of [:>] in [s]: the text before it and after it. *)
Fixpoint rsplit_close (s : string) : option (string * string) :=
  match s with
  | EmptyString => None
  | String c s' =>
      match rsplit_close s' with
      | Some (a, b) => Some (String c a, b)
      | None =>
          match after_close s with
          | Some t => Some (EmptyString, t)
          | None => None
          end
      end
  end.

(** A match of the pattern of [losub] at the start of [s], as the
    backtracking matcher of [re] finds it.  The pattern is [<:], optional
    white space, a group of non-space characters (possibly none), optional
    white space, [:>]; every repetition is greedy.  The result holds the
    matched text (group 0), group 1, and the text after the match.
    After [<:] and the white space, group 1 first
    takes the whole run of non-space characters; the match then needs
    [:>] after the following white space.  Failing that, group 1 gives
    characters back one at a time, so that it ends at the last [:>] inside
    the run.  Giving back white space never yields a match. *)
Definition token_match (s : string) : option (string * string * string) :=
  match s with
  | String "<"%char (String ":"%char s1) =>
      let '(ws1, s2) := span is_space s1 in
      let '(run, s3) := span not_space s2 in
      let '(ws2, s4) := span is_space s3 in
      match after_close s4 with
      | Some rest =>
          Some ("<:" +:+ ws1 +:+ run +:+ ws2 +:+ ":>", run, rest)
      | None =>
          match rsplit_close run with
          | Some (name, run') =>
              Some ("<:" +:+ ws1 +:+ name +:+ ":>", name, run' +:+ s3)
          | None => None
          end
      end
  | _ => None
  end.

(** The inner function [subtext] of [losub]; [None] is Python's [None],
    returned by falling off the end after the diagnostic. *)
Definition subtext (subs : gmap string string) (group0 group1 : string)
  : M (option string) :=
  match subs !! group1 with
  | Some v => ret (Some v)
  | None =>
      print_stderr ("Unrecognised substitution: " +:+ group0) ;;;
      ret None
  end.

(** [re.sub(pattern, subtext, text)]: the text is scanned from the left;
    each match is replaced by what [subtext] returns, and [re] adds
    nothing to the output when the function returns [None]. *)
Fixpoint re_sub_tokens (fuel : nat) (subs : gmap string string) (s : string)
  : M string :=
  match fuel with
  | O => raise OutOfFuel
  | S fuel =>
      match token_match s with
      | Some (group0, group1, rest) =>
          r <- subtext subs group0 group1 ;;
          t <- re_sub_tokens fuel subs rest ;;
          ret (default EmptyString r +:+ t)
      | None =>
          match s with
          | EmptyString => ret EmptyString
          | String c s' =>
              t <- re_sub_tokens fuel subs s' ;;
              ret (String c t)
          end
      end
  end.

(** [losub(text, subs)] *)
Definition losub (text : string) (subs : gmap string string) : M string :=
  re_sub_tokens (S (String.length text)) subs text.

(** ** The random generator *)

(** [random._randbelow(n)]: one draw, a value below [n]. *)
Definition randbelow (n : nat) : M nat :=
  fun w =>
    (Ok (hd 0%nat (rng w) mod n)%nat,
     {| rng := tl (rng w); draws := S (draws w);
        exists_hidden := exists_hidden w; stderr := stderr w;
        dsubs := dsubs w; dsubsmd := dsubsmd w |}).

(** [random.randint(a, b)] *)
Definition randint (a b : Z) : M Z :=
  r <- randbelow (Z.to_nat (b - a + 1)) ;;
  ret (a + Z.of_nat r).

(** The loop of [random.shuffle(x)]:
    [for i in reversed(range(1, len(x))): j = randbelow(i + 1);
     x[i], x[j] = x[j], x[i]], here for [i] from [k] down to 1. *)
Fixpoint shuffle_from {A} (k : nat) (x : list A) : M (list A) :=
  match k with
  | O => ret x
  | S k' =>
      j <- randbelow (S k) ;;
      match x !! k, x !! j with
      | Some xi, Some xj => shuffle_from k' (<[j := xi]> (<[k := xj]> x))
      | _, _ => raise IndexError
      end
  end.

(** [random.shuffle(x)] *)
Definition shuffle {A} (x : list A) : M (list A) :=
  shuffle_from (length x - 1) x.

(** [list(range(n))] *)
Definition py_range (n : nat) : list Z := Z.of_nat <$> seq 0 n.

(** ** Piece assignment: shared definitions *)

Definition rbind {A B} (r : result A) (f : A -> result B) : result B :=
  match r with
  | Ok a => f a
  | Raise e => Raise e
  end.

Notation "x <~ m ;; k" := (rbind m (fun x => k))
  (at level 100, m at next level, right associativity) : py_scope.

(** [l[j] = v] on a list. *)
Definition py_setitem {A} (l : list A) (j : Z) (v : A) : result (list A) :=
  let n := Z.of_nat (length l) in
  let k := if j <? 0 then j + n else j in
  if (k <? 0) || (n <=? k) then Raise IndexError
  else Ok (<[Z.to_nat k := v]> l).

(** An element of a card list: a content entry, a card number (a string)
    or an angle (an integer). *)
Inductive cell : Type :=
| CEntry (e : entry)
| CStr (s : string)
| CNum (z : Z).

(** A cell passed to [make_entry]: everything but a dict is a bare value. *)
Definition cell_entry (c : cell) : entry :=
  match c with
  | CEntry e => e
  | CStr s => Bare (SStr s)
  | CNum z => Bare (SInt z)
  end.

(** [repr(s)] of a string: the quote is chosen as Python does, and the
    quote, the backslash, newline, carriage return and tab are escaped;
    other control characters are left as they are. *)
Fixpoint str_contains (c : ascii) (s : string) : bool :=
  match s with
  | EmptyString => false
  | String a s' => Ascii.eqb a c || str_contains c s'
  end.

Fixpoint repr_chars (q : ascii) (s : string) : string :=
  match s with
  | EmptyString => EmptyString
  | String c s' =>
      (if Ascii.eqb c q || Ascii.eqb c "092"
       then backslash +:+ String c EmptyString
       else if Ascii.eqb c "010" then "\n"
       else if Ascii.eqb c "013" then "\r"
       else if Ascii.eqb c "009" then "\t"
       else String c EmptyString) +:+ repr_chars q s'
  end.

Definition repr_str (s : string) : string :=
  let q := if str_contains "'" s && negb (str_contains "034" s)
           then "034"%char else "'"%char in
  String q (repr_chars q s) +:+ String q EmptyString.

Definition repr_scalar (v : scalar) : string :=
  match v with
  | SStr s => repr_str s
  | _ => py_str v
  end.

Fixpoint repr_items (d : list (string * scalar)) : string :=
  match d with
  | [] => EmptyString
  | [(k, v)] => repr_str k +:+ ": " +:+ repr_scalar v
  | (k, v) :: d' => repr_str k +:+ ": " +:+ repr_scalar v +:+ ", "
                    +:+ repr_items d'
  end.

(** [str(c)], as [%s] formats a cell. *)
Definition cell_str (c : cell) : string :=
  match c with
  | CEntry (Bare v) => py_str v
  | CEntry (Dict d) => "{" +:+ repr_items d +:+ "}"
  | CStr s => s
  | CNum z => pretty z
  end.

(** [%s] applied to what [make_entry] returned. *)
Definition fmt_s (r : option string) : string := default "None" r.

(** The layout file, as loaded: the tables read by the two functions (a
    missing key is [None]) and the scalar options looked up by [getopt]
    (an option whose value is no integer is [None]). *)
Record layout : Type := Layout {
  triangleSolutionCards : option (list (list string));
  triangleSolutionOrientation : option (list Z);
  trianglePuzzleOrientation : option (list (list Z));
  squareSolutionCards : option (list (list string));
  squareSolutionOrientation : option (list Z);
  squarePuzzleOrientation : option (list (list Z));
  layout_opts : gmap string (option Z)
}.

(** [getopt(layout, data, options, opt, default)] *)
Definition getopt {V} (layout data options : gmap string V) (opt : string)
    (default : V) : V :=
  match options !! opt with
  | Some v => v
  | None =>
      match data !! opt with
      | Some v => v
      | None =>
          match layout !! opt with
          | Some v => v
          | None => default
          end
      end
  end.

(** [layout[key]] *)
Definition layout_key {A} (key : string) (field : option A) : M A :=
  match field with
  | Some v => ret v
  | None => raise (KeyError key)
  end.

(** One pass of the inner loop that reads a solution card: the entry a
    reference such as [Q3], [A3] or [E2] stands for.  The last branch
    calls [printf], a name the script never defines. *)
Definition resolve_ref (pairs : list (entry * entry)) (edges : list entry)
    (ref : string) : result entry :=
  n <~ int_of_string (str_tail ref) ;;
  let entrynum := n - 1 in
  c <~ str_head ref ;;
  if Ascii.eqb c "Q" then rmap fst (py_index pairs entrynum)
  else if Ascii.eqb c "A" then rmap snd (py_index pairs entrynum)
  else if Ascii.eqb c "E" then py_index edges entrynum
  else Raise (NameError "printf").

Fixpoint resolve_card (pairs : list (entry * entry)) (edges : list entry)
    (card : list string) : result (list cell) :=
  match card with
  | [] => Ok []
  | ref :: card' =>
      e <~ resolve_ref pairs edges ref ;;
      newcard <~ resolve_card pairs edges card' ;;
      Ok (CEntry e :: newcard)
  end.

Fixpoint resolve_cards (pairs : list (entry * entry)) (edges : list entry)
    (cards : list (list string)) : result (list (list cell)) :=
  match cards with
  | [] => Ok []
  | card :: cards' =>
      newcard <~ resolve_card pairs edges card ;;
      rest <~ resolve_cards pairs edges cards' ;;
      Ok (newcard :: rest)
  end.

(** [sizes[max(size - 2, 0)]] *)
Definition number_size (size : option Z) : result string :=
  match size with
  | Some s => py_index sizes (Z.max (s - 2) 0)
  | None => Raise TypeError
  end.

Definition dsubs_set (k v : string) : M unit :=
  fun w =>
    (Ok tt, {| rng := rng w; draws := draws w;
               exists_hidden := exists_hidden w; stderr := stderr w;
               dsubs := <[k := v]> (dsubs w); dsubsmd := dsubsmd w |}).

Definition dsubsmd_set (k v : string) : M unit :=
  fun w =>
    (Ok tt, {| rng := rng w; draws := draws w;
               exists_hidden := exists_hidden w; stderr := stderr w;
               dsubs := dsubs w; dsubsmd := <[k := v]> (dsubsmd w) |}).

(** [dsubsmd[k]] *)
Definition dsubsmd_get (k : string) : M string :=
  fun w =>
    match dsubsmd w !! k with
    | Some v => (Ok v, w)
    | None => (Raise (KeyError k), w)
    end.

(** [if k not in dsubsmd: dsubsmd[k] = ''] *)
Definition dsubsmd_setdefault (k : string) : M unit :=
  fun w =>
    match dsubsmd w !! k with
    | Some _ => (Ok tt, w)
    | None => dsubsmd_set k EmptyString w
    end.

(** The inner loop of the Markdown part:
    [for entry in cells: row += make_entry(entry, 0, 'hide', 'md') + '|'] *)
Fixpoint md_row (cells : list cell) (row : string) : M string :=
  match cells with
  | [] => ret row
  | c :: cells' =>
      r <- make_entry (cell_entry c) (Some 0) "hide" "md" ;;
      match r with
      | Some s => md_row cells' (row +:+ s +:+ "|")
      | None => raise TypeError
      end
  end.

(** [for (i, x) in enumerate(l): body], for a body that may change the
    element [x] in place (the result holds the elements as the loop leaves
    them) and that updates a variable [s] of the enclosing function. *)
Fixpoint for_enumerate {A St} (body : nat -> A -> St -> M (A * St))
    (i : nat) (l : list A) (s : St) : M (list A * St) :=
  match l with
  | [] => ret ([], s)
  | x :: rest =>
      r <- body i x s ;;
      r' <- for_enumerate body (S i) rest (snd r) ;;
      ret (fst r :: fst r', snd r')
  end.

(** The values of the local variables of [make_triangles] (or of
    [make_squares]) when the function returns: the solution cards, each
    with its number and angle appended, the order drawn, and the puzzle
    cards. *)
Record locals : Type := Locals {
  solcards : list (list cell);
  order : list Z;
  puzcards : list (list cell)
}.

(** [(angle + 180) % 360 - 180] *)
Definition normalize_angle (angle : Z) : Z := (angle + 180) mod 360 - 180.

(** ** Triangles *)

(** The list assigned to [trianglepuzcard[j]]. *)
Definition triangle_puzcard (solcard : list cell) (rot j : Z)
    (trianglepuzorient : list (list Z)) : result (list cell) :=
  a <~ py_index solcard ((3 - rot) mod 3) ;;
  b <~ py_index solcard ((4 - rot) mod 3) ;;
  c <~ py_index solcard ((5 - rot) mod 3) ;;
  o <~ py_index trianglepuzorient j ;;
  n <~ py_index o 1 ;;
  Ok [a; b; c; CStr (cardnum (j + 1)); CNum n].

(** The value of [angle] before it is normalised. *)
Definition triangle_angle (i rot j : Z) (trianglesolorient : list Z)
    (trianglepuzorient : list (list Z)) : result Z :=
  o <~ py_index trianglepuzorient j ;;
  n <~ py_index o 1 ;;
  s <~ py_index trianglesolorient i ;;
  o' <~ py_index trianglepuzorient j ;;
  b <~ py_index o' 0 ;;
  Ok (n + (s - b) - 120 * rot).

(** [('{%s}' * 5) % (a, b, c, d, e)] *)
Definition format5 (a b c d e : string) : string :=
  "{" +:+ a +:+ "}{" +:+ b +:+ "}{" +:+ c +:+ "}{" +:+ d +:+ "}{"
  +:+ e +:+ "}".

(** The five fields of a [dsubs] value for a triangle card. *)
Definition triangle_fields (card : list cell) (size : option Z)
    (hide : string) : M string :=
  c0 <- lift (py_index card 0) ;;
  e0 <- make_entry (cell_entry c0) size hide "tikz" ;;
  c1 <- lift (py_index card 1) ;;
  e1 <- make_entry (cell_entry c1) size hide "tikz" ;;
  c2 <- lift (py_index card 2) ;;
  e2 <- make_entry (cell_entry c2) size hide "tikz" ;;
  ns <- lift (number_size size) ;;
  c3 <- lift (py_index card 3) ;;
  c4 <- lift (py_index card 4) ;;
  ret (format5 (fmt_s e0) (fmt_s e1) (fmt_s e2)
               (ns +:+ " " +:+ cell_str c3) (cell_str c4)).

(** One pass of the loop over [enumerate(trianglesolcard)]: the solution
    card with its number and angle appended, and the puzzle cards. *)
Definition triangle_step (solution_size puzzle_size : option Z)
    (triangleorder : list Z) (trianglesolorient : list Z)
    (trianglepuzorient : list (list Z))
    (i : nat) (solcard : list cell) (trianglepuzcard : list (list cell))
  : M (list cell * list (list cell)) :=
  j <- lift (py_index triangleorder (Z.of_nat i)) ;;
  rot <- randint 0 2 ;;
  newcard <- lift (triangle_puzcard solcard rot j trianglepuzorient) ;;
  trianglepuzcard <- lift (py_setitem trianglepuzcard j newcard) ;;
  puzcard <- lift (py_index trianglepuzcard j) ;;
  angle <- lift (triangle_angle (Z.of_nat i) rot j trianglesolorient
                                trianglepuzorient) ;;
  let solcard := solcard ++ [CStr (cardnum (j + 1));
                             CNum (normalize_angle angle)] in
  sol <- triangle_fields solcard solution_size "mark" ;;
  dsubs_set ("trisolcard" +:+ pretty (Z.of_nat i + 1)) sol ;;;
  puz <- triangle_fields puzcard puzzle_size "hide" ;;
  dsubs_set ("tripuzcard" +:+ pretty (j + 1)) puz ;;;
  ret (solcard, trianglepuzcard).

(** The loop [for t in trianglepuzcard] of the Markdown part. *)
Fixpoint triangle_md (trianglepuzcard : list (list cell)) : M unit :=
  match trianglepuzcard with
  | [] => ret tt
  | t :: rest =>
      row <- md_row (take 3 t) "|" ;;
      p3 <- dsubsmd_get "puzcards3" ;;
      dsubsmd_set "puzcards3" (p3 +:+ row +:+ newline) ;;;
      p4 <- dsubsmd_get "puzcards4" ;;
      dsubsmd_set "puzcards4" (p4 +:+ row +:+ " &nbsp; |" +:+ newline) ;;;
      triangle_md rest
  end.

(** [make_triangles(data, layout, pairs, edges, dsubs, dsubsmd)].  The
    list [[[]] * num_triangle_cards] holds one empty list at all its
    positions; the loop replaces positions and never changes that list in
    place, so a list of empty lists stands for it. *)
Definition make_triangles (data : gmap string (option Z)) (layout : layout)
    (pairs : list (entry * entry)) (edges : list entry) : M locals :=
  let puzzle_size :=
    getopt (layout_opts layout) data ∅ "puzzleTextSize" None in
  let solution_size :=
    getopt (layout_opts layout) data ∅ "solutionTextSize" None in
  tcards <- layout_key "triangleSolutionCards"
              (triangleSolutionCards layout) ;;
  let num_triangle_cards := length tcards in
  cards <- layout_key "triangleSolutionCards"
             (triangleSolutionCards layout) ;;
  trianglesolcard <- lift (resolve_cards pairs edges cards) ;;
  trianglesolorient <- layout_key "triangleSolutionOrientation"
                         (triangleSolutionOrientation layout) ;;
  trianglepuzorient <- layout_key "trianglePuzzleOrientation"
                         (trianglePuzzleOrientation layout) ;;
  triangleorder <- shuffle (py_range num_triangle_cards) ;;
  let trianglepuzcard := replicate num_triangle_cards [] in
  r <- for_enumerate
         (triangle_step solution_size puzzle_size triangleorder
            trianglesolorient trianglepuzorient)
         0 trianglesolcard trianglepuzcard ;;
  dsubsmd_setdefault "puzcards3" ;;;
  dsubsmd_setdefault "puzcards4" ;;;
  triangle_md (snd r) ;;;
  ret {| solcards := fst r; order := triangleorder; puzcards := snd r |}.

(** ** Squares *)

(** The list assigned to [squarepuzcard[j]]. *)
Definition square_puzcard (solcard : list cell) (rot j : Z)
    (num_triangle_cards : Z) (squarepuzorient : list (list Z))
  : result (list cell) :=
  a <~ py_index solcard ((4 - rot) mod 4) ;;
  b <~ py_index solcard ((5 - rot) mod 4) ;;
  c <~ py_index solcard ((6 - rot) mod 4) ;;
  d <~ py_index solcard ((7 - rot) mod 4) ;;
  o <~ py_index squarepuzorient j ;;
  n <~ py_index o 1 ;;
  Ok [a; b; c; d; CStr (cardnum (j + num_triangle_cards + 1)); CNum n].

(** The value of [angle] before it is normalised. *)
Definition square_angle (i rot j : Z) (squaresolorient : list Z)
    (squarepuzorient : list (list Z)) : result Z :=
  o <~ py_index squarepuzorient j ;;
  n <~ py_index o 1 ;;
  s <~ py_index squaresolorient i ;;
  o' <~ py_index squarepuzorient j ;;
  b <~ py_index o' 0 ;;
  Ok (n + (s - b) - 90 * rot).

(** [('{%s}' * 6) % (a, b, c, d, e, f)] *)
Definition format6 (a b c d e f : string) : string :=
  "{" +:+ a +:+ "}{" +:+ b +:+ "}{" +:+ c +:+ "}{" +:+ d +:+ "}{"
  +:+ e +:+ "}{" +:+ f +:+ "}".

(** The six fields of a [dsubs] value for a square card. *)
Definition square_fields (card : list cell) (size : option Z)
    (hide : string) : M string :=
  c0 <- lift (py_index card 0) ;;
  e0 <- make_entry (cell_entry c0) size hide "tikz" ;;
  c1 <- lift (py_index card 1) ;;
  e1 <- make_entry (cell_entry c1) size hide "tikz" ;;
  c2 <- lift (py_index card 2) ;;
  e2 <- make_entry (cell_entry c2) size hide "tikz" ;;
  c3 <- lift (py_index card 3) ;;
  e3 <- make_entry (cell_entry c3) size hide "tikz" ;;
  ns <- lift (number_size size) ;;
  c4 <- lift (py_index card 4) ;;
  c5 <- lift (py_index card 5) ;;
  ret (format6 (fmt_s e0) (fmt_s e1) (fmt_s e2) (fmt_s e3)
               (ns +:+ " " +:+ cell_str c4) (cell_str c5)).

(** One pass of the loop over [enumerate(squaresolcard)]. *)
Definition square_step (solution_size puzzle_size : option Z)
    (num_triangle_cards : Z)
    (squareorder : list Z) (squaresolorient : list Z)
    (squarepuzorient : list (list Z))
    (i : nat) (solcard : list cell) (squarepuzcard : list (list cell))
  : M (list cell * list (list cell)) :=
  j <- lift (py_index squareorder (Z.of_nat i)) ;;
  rot <- randint 0 3 ;;
  newcard <- lift (square_puzcard solcard rot j num_triangle_cards
                                  squarepuzorient) ;;
  squarepuzcard <- lift (py_setitem squarepuzcard j newcard) ;;
  puzcard <- lift (py_index squarepuzcard j) ;;
  angle <- lift (square_angle (Z.of_nat i) rot j squaresolorient
                              squarepuzorient) ;;
  let solcard := solcard ++ [CStr (cardnum (j + num_triangle_cards + 1));
                             CNum (normalize_angle angle)] in
  sol <- square_fields solcard solution_size "mark" ;;
  dsubs_set ("sqsolcard" +:+ pretty (Z.of_nat i + 1)) sol ;;;
  puz <- square_fields puzcard puzzle_size "hide" ;;
  dsubs_set ("sqpuzcard" +:+ pretty (j + 1)) puz ;;;
  ret (solcard, squarepuzcard).

(** The loop [for t in squarepuzcard] of the Markdown part. *)
Fixpoint square_md (squarepuzcard : list (list cell)) : M unit :=
  match squarepuzcard with
  | [] => ret tt
  | t :: rest =>
      row <- md_row (take 4 t) "|" ;;
      p4 <- dsubsmd_get "puzcards4" ;;
      dsubsmd_set "puzcards4" (p4 +:+ row +:+ newline) ;;;
      square_md rest
  end.

(** [make_squares(data, layout, pairs, edges, dsubs, dsubsmd)] *)
Definition make_squares (data : gmap string (option Z)) (layout : layout)
    (pairs : list (entry * entry)) (edges : list entry) : M locals :=
  let puzzle_size :=
    getopt (layout_opts layout) data ∅ "puzzleTextSize" None in
  let solution_size :=
    getopt (layout_opts layout) data ∅ "solutionTextSize" None in
  tcards <- layout_key "triangleSolutionCards"
              (triangleSolutionCards layout) ;;
  let num_triangle_cards := length tcards in
  scards <- layout_key "squareSolutionCards"
              (squareSolutionCards layout) ;;
  let num_square_cards := length scards in
  cards <- layout_key "squareSolutionCards"
             (squareSolutionCards layout) ;;
  squaresolcard <- lift (resolve_cards pairs edges cards) ;;
  squaresolorient <- layout_key "squareSolutionOrientation"
                       (squareSolutionOrientation layout) ;;
  squarepuzorient <- layout_key "squarePuzzleOrientation"
                       (squarePuzzleOrientation layout) ;;
  squareorder <- shuffle (py_range num_square_cards) ;;
  let squarepuzcard := replicate num_square_cards [] in
  r <- for_enumerate
         (square_step solution_size puzzle_size (Z.of_nat num_triangle_cards)
            squareorder squaresolorient squarepuzorient)
         0 squaresolcard squarepuzcard ;;
  dsubsmd_setdefault "puzcards4" ;;;
  square_md (snd r) ;;;
  ret {| solcards := fst r; order := squareorder; puzcards := snd r |}.

(** ** Vocabulary of the statements *)

(** The entry is a dict with a ["text"] key whose ["hidden"] value is
    true: the entries that reach the assignment to [exists_hidden]. *)
Definition flagged_hidden (e : entry) : bool :=
  match e with
  | Dict d =>
      match dict_get d "text" with
      | Some _ => from_option truthy false (dict_get d "hidden")
      | None => false
      end
  | Bare _ => false
  end.

(** The text [make_entry] passes on for an entry. *)
Definition entry_text (e : entry) : scalar :=
  match e with
  | Bare v => v
  | Dict d => default (SStr EmptyString) (dict_get d "text")
  end.

(** No image marker occurs in the text of the entry. *)
Definition no_image (e : entry) : Prop :=
  img_re_search (py_str (entry_text e)) = None.

Definition same_hidden : relation world :=
  fun w w' => exists_hidden w' = exists_hidden w.

Definition more_draws : relation world :=
  fun w w' => (draws w <= draws w')%nat.

(** [m] moves every state to one related to it by [R]. *)
Definition respects (R : relation world) {A} (m : M A) : Prop :=
  forall w, R w (snd (m w)).

(** The state at the start of a run: [exists_hidden] reset, nothing
    written, no draw made; [raw] are the values the generator will yield. *)
Definition fresh_world (raw : list nat) : world :=
  {| rng := raw; draws := 0; exists_hidden := false; stderr := [];
     dsubs := ∅; dsubsmd := ∅ |}.

Definition valid_hide (hide : string) : Prop :=
  hide = "hide" \/ hide = "mark" \/ hide = "ignore".

Definition valid_style (style : string) : Prop :=
  style = "table" \/ style = "tikz" \/ style = "md".

(** An index of the list [sizes]: 0 to 9, or -10 to -1 counted from the
    end. *)
Definition valid_size (ds : option Z) : Prop :=
  exists d, ds = Some d /\ -10 <= d <= 9.

(** Every character of [s] satisfies [p]. *)
Fixpoint str_forall (p : ascii -> bool) (s : string) : bool :=
  match s with
  | EmptyString => true
  | String c s' => p c && str_forall p s'
  end.

(** [s] starts with a colon. *)
Definition starts_colon (s : string) : bool :=
  match s with
  | String c _ => Ascii.eqb c ":"
  | EmptyString => false
  end.

(** The opening [<:] of a token occurs in [s]. *)
Fixpoint has_open (s : string) : bool :=
  match s with
  | EmptyString => false
  | String c s' => Ascii.eqb c "<" && starts_colon s' || has_open s'
  end.

(** The state after [print(s, file=sys.stderr)]. *)
Definition printed (s : string) (w : world) : world :=
  snd (print_stderr s w).

(** The part of a pass of the triangle loop that follows the draw. *)
Definition triangle_after_draw (solution_size puzzle_size : option Z)
    (trianglesolorient : list Z) (trianglepuzorient : list (list Z))
    (i : nat) (solcard : list cell) (trianglepuzcard : list (list cell))
    (j rot : Z) : M (list cell * list (list cell)) :=
  newcard <- lift (triangle_puzcard solcard rot j trianglepuzorient) ;;
  trianglepuzcard <- lift (py_setitem trianglepuzcard j newcard) ;;
  puzcard <- lift (py_index trianglepuzcard j) ;;
  angle <- lift (triangle_angle (Z.of_nat i) rot j trianglesolorient
                                trianglepuzorient) ;;
  let solcard := solcard ++ [CStr (cardnum (j + 1));
                             CNum (normalize_angle angle)] in
  sol <- triangle_fields solcard solution_size "mark" ;;
  dsubs_set ("trisolcard" +:+ pretty (Z.of_nat i + 1)) sol ;;;
  puz <- triangle_fields puzcard puzzle_size "hide" ;;
  dsubs_set ("tripuzcard" +:+ pretty (j + 1)) puz ;;;
  ret (solcard, trianglepuzcard).

(** The part of a pass of the square loop that follows the draw. *)
Definition square_after_draw (solution_size puzzle_size : option Z)
    (num_triangle_cards : Z)
    (squaresolorient : list Z) (squarepuzorient : list (list Z))
    (i : nat) (solcard : list cell) (squarepuzcard : list (list cell))
    (j rot : Z) : M (list cell * list (list cell)) :=
  newcard <- lift (square_puzcard solcard rot j num_triangle_cards
                                  squarepuzorient) ;;
  squarepuzcard <- lift (py_setitem squarepuzcard j newcard) ;;
  puzcard <- lift (py_index squarepuzcard j) ;;
  angle <- lift (square_angle (Z.of_nat i) rot j squaresolorient
                              squarepuzorient) ;;
  let solcard := solcard ++ [CStr (cardnum (j + num_triangle_cards + 1));
                             CNum (normalize_angle angle)] in
  sol <- square_fields solcard solution_size "mark" ;;
  dsubs_set ("sqsolcard" +:+ pretty (Z.of_nat i + 1)) sol ;;;
  puz <- square_fields puzcard puzzle_size "hide" ;;
  dsubs_set ("sqpuzcard" +:+ pretty (j + 1)) puz ;;;
  ret (solcard, squarepuzcard).


(** What one pass of a placement loop does with solution card [i]: it
    reads the position [j] from the order, draws a rotation, writes the
    card built by [build] at position [j] and appends the card number and
    the normalised angle to the solution card. *)
Definition step_spec (build : list cell -> Z -> Z -> result (list cell))
    (angle : Z -> Z -> Z -> result Z) (label : Z -> string) (maxrot : Z)
    (order : list Z) (i : nat) (solcard solcard' : list cell)
    (puz puz' : list (list cell)) : Prop :=
  exists j rot newcard a,
    py_index order (Z.of_nat i) = Ok j /\ 0 <= rot <= maxrot
    /\ build solcard rot j = Ok newcard
    /\ py_setitem puz j newcard = Ok puz'
    /\ angle (Z.of_nat i) rot j = Ok a
    /\ solcard' = solcard ++ [CStr (label j); CNum (normalize_angle a)].

(** A solution card whose ring read from the layout is [ring], at index
    [i] of the order [ord], has been placed: it has become [solcard'],
    the ring with its number and angle, and the puzzle card at its
    position in [puz] is the one built from the ring with some rotation. *)
Definition placed_at (build : list cell -> Z -> Z -> result (list cell))
    (angle : Z -> Z -> Z -> result Z) (label : Z -> string) (maxrot : Z)
    (ord : list Z) (puz : list (list cell)) (i : nat)
    (ring solcard' : list cell) : Prop :=
  exists j rot newcard a,
    ord !! i = Some j /\ 0 <= rot <= maxrot
    /\ build ring rot j = Ok newcard
    /\ angle (Z.of_nat i) rot j = Ok a
    /\ puz !! Z.to_nat j = Some newcard
    /\ solcard' = ring ++ [CStr (label j); CNum (normalize_angle a)].

Definition placed (build : list cell -> Z -> Z -> result (list cell))
    (angle : Z -> Z -> Z -> result Z) (label : Z -> string) (maxrot : Z)
    (r : locals) (i : nat) (ring : list cell) : Prop :=
  exists solcard',
    solcards r !! i = Some solcard'
    /\ placed_at build angle label maxrot (order r) (puzcards r) i ring
         solcard'.

Definition triangle_placed (solorient : list Z) (puzorient : list (list Z))
  : locals -> nat -> list cell -> Prop :=
  placed (fun solcard rot j => triangle_puzcard solcard rot j puzorient)
         (fun i rot j => triangle_angle i rot j solorient puzorient)
         (fun j => cardnum (j + 1)) 2.

Definition square_placed (num_triangle_cards : Z) (solorient : list Z)
    (puzorient : list (list Z)) : locals -> nat -> list cell -> Prop :=
  placed (fun solcard rot j =>
            square_puzcard solcard rot j num_triangle_cards puzorient)
         (fun i rot j => square_angle i rot j solorient puzorient)
         (fun j => cardnum (j + num_triangle_cards + 1)) 3.

(** The order is a bijection between the indices of the [n] solution
    cards and the [n] puzzle positions: each index is sent to one
    position, and each position receives exactly one index. *)
Definition bijective_order (n : nat) (ord : list Z) : Prop :=
  length ord = n
  /\ (forall i, (i < n)%nat ->
      exists j, (j < n)%nat /\ ord !! i = Some (Z.of_nat j))
  /\ (forall j, (j < n)%nat ->
      exists i, (i < n)%nat /\ ord !! i = Some (Z.of_nat j)
                /\ forall i', ord !! i' = Some (Z.of_nat j) -> i' = i).

(** Slot [k] of [newcard] is slot [(k + len - rot) mod len] of [ring],
    for each of the [len] slots. *)
Definition rotated (len rot : Z) (ring newcard : list cell) : Prop :=
  forall k, 0 <= k < len ->
    exists c, py_index newcard k = Ok c
              /\ py_index ring ((k + len - rot) mod len) = Ok c.

(** The value of a table lookup [table[j][k]]. *)
Definition table_at (table : list (list Z)) (j k : Z) : result Z :=
  o <~ py_index table j ;; py_index o k.

(** Layout, content and generator values used in examples. *)
Definition str_entry (s : string) : entry := Bare (SStr s).

Definition demo_pairs : list (entry * entry) :=
  [(str_entry "Q1", str_entry "A1"); (str_entry "Q2", str_entry "A2")].

Definition demo_edges : list entry := [str_entry "E1"; str_entry "E2"].

Definition demo_opts : gmap string (option Z) :=
  <["puzzleTextSize" := Some 5]> (<["solutionTextSize" := Some 3]> ∅).

Definition demo_layout : layout :=
  {| triangleSolutionCards :=
       Some [["Q1"; "A2"; "E1"]; ["Q2"; "A1"; "E2"]; ["E1"; "E2"; "Q1"]];
     triangleSolutionOrientation := Some [0; 60; 120];
     trianglePuzzleOrientation := Some [[0; 0]; [180; 180]; [60; -30]];
     squareSolutionCards := Some [["Q1"; "A1"; "E1"; "E2"]];
     squareSolutionOrientation := Some [0];
     squarePuzzleOrientation := Some [[0; 0]];
     layout_opts := demo_opts |}%string.

(** The locals of a run, and an empty record when the run raised. *)
Definition locals_of (run : result locals * world) : locals :=
  match fst run with
  | Ok r => r
  | Raise _ => {| solcards := []; order := []; puzcards := [] |}
  end.

(** The ring of scenario A, resolved against [demo_pairs] and
    [demo_edges]. *)
Definition scenario_ring : list cell :=
  [CEntry (str_entry "Q1"); CEntry (str_entry "A1");
   CEntry (str_entry "E1"); CEntry (str_entry "E2")].

(** A layout with one triangle whose number is to be drawn at 180 degrees
    on the puzzle sheet. *)
Definition upside_down_layout : layout :=
  {| triangleSolutionCards := Some [["Q1"; "A1"; "E1"]];
     triangleSolutionOrientation := Some [0];
     trianglePuzzleOrientation := Some [[0; 180]];
     squareSolutionCards := None;
     squareSolutionOrientation := None;
     squarePuzzleOrientation := None;
     layout_opts := demo_opts |}%string.

(** A layout whose first triangle and first square hold a reference of an
    unknown kind. *)
Definition unknown_kind_layout : layout :=
  {| triangleSolutionCards := Some [["X1"; "Q1"; "A1"]];
     triangleSolutionOrientation := Some [0];
     trianglePuzzleOrientation := Some [[0; 0]];
     squareSolutionCards := Some [["Q1"; "A1"; "E1"; "Z2"]];
     squareSolutionOrientation := Some [0];
     squarePuzzleOrientation := Some [[0; 0]];
     layout_opts := demo_opts |}%string.

(** One triangle, and orientation tables with two entries. *)
Definition long_tables_layout : layout :=
  {| triangleSolutionCards := Some [["Q1"; "A1"; "E1"]];
     triangleSolutionOrientation := Some [0; 60];
     trianglePuzzleOrientation := Some [[0; 0]; [180; 180]];
     squareSolutionCards := None;
     squareSolutionOrientation := None;
     squarePuzzleOrientation := None;
     layout_opts := demo_opts |}%string.

(** One triangle, and orientation tables with no entry. *)
Definition short_tables_layout : layout :=
  {| triangleSolutionCards := Some [["Q1"; "A1"; "E1"]];
     triangleSolutionOrientation := Some [];
     trianglePuzzleOrientation := Some [];
     squareSolutionCards := None;
     squareSolutionOrientation := None;
     squarePuzzleOrientation := None;
     layout_opts := demo_opts |}%string.

(** The layout with the orientation tables of the triangles cut to the
    number of triangle cards. *)
Definition trim_triangle_tables (l : layout) : layout :=
  let n := length (default [] (triangleSolutionCards l)) in
  {| triangleSolutionCards := triangleSolutionCards l;
     triangleSolutionOrientation := take n <$> triangleSolutionOrientation l;
     trianglePuzzleOrientation := take n <$> trianglePuzzleOrientation l;
     squareSolutionCards := squareSolutionCards l;
     squareSolutionOrientation := squareSolutionOrientation l;
     squarePuzzleOrientation := squarePuzzleOrientation l;
     layout_opts := layout_opts l |}.

(** The layout with the orientation tables of the squares cut to the
    number of square cards. *)
Definition trim_square_tables (l : layout) : layout :=
  let n := length (default [] (squareSolutionCards l)) in
  {| triangleSolutionCards := triangleSolutionCards l;
     triangleSolutionOrientation := triangleSolutionOrientation l;
     trianglePuzzleOrientation := trianglePuzzleOrientation l;
     squareSolutionCards := squareSolutionCards l;
     squareSolutionOrientation := take n <$> squareSolutionOrientation l;
     squarePuzzleOrientation := take n <$> squarePuzzleOrientation l;
     layout_opts := layout_opts l |}.

(** * Properties *)

(** ** The state monad *)

Lemma bind_ok {A B} (m : M A) (f : A -> M B) w b w' :
  bind m f w = (Ok b, w') ->
  exists a w1, m w = (Ok a, w1) /\ f a w1 = (Ok b, w').
Proof.
  unfold bind. destruct (m w) as [[a|e] w1]; [eauto | discriminate].
Qed.

Lemma bind_step {A B} (m : M A) (f : A -> M B) w a w1 :
  m w = (Ok a, w1) -> bind m f w = f a w1.
Proof. unfold bind. by intros ->. Qed.

Lemma lift_ok {A} (r : result A) w a w' :
  lift r w = (Ok a, w') -> r = Ok a /\ w' = w.
Proof. unfold lift. by intros [= -> ->]. Qed.

Lemma rbind_ok {A B} (r : result A) (f : A -> result B) b :
  rbind r f = Ok b -> exists a, r = Ok a /\ f a = Ok b.
Proof. destruct r; simpl; [eauto | discriminate]. Qed.

(** Computations that move the state along a preorder: used for the
    fields a function leaves alone and for the count of draws. *)
Section Respects.
Context (R : relation world).

Context {Hpre : PreOrder R}.
Lemma respects_ret {A} (a : A) : respects R (ret a).
Proof. intros w. reflexivity. Qed.

Lemma respects_raise {A} e : respects R (@raise A e).
Proof. intros w. reflexivity. Qed.

Lemma respects_lift {A} (r : result A) : respects R (lift r).
Proof. intros w. reflexivity. Qed.

Lemma respects_bind {A B} (m : M A) (f : A -> M B) :
  respects R m -> (forall a, respects R (f a)) -> respects R (bind m f).
Proof.
  intros Hm Hf w. unfold bind. specialize (Hm w).
  destruct (m w) as [[a|e] w1]; simpl in *; [|done].
  etrans; [exact Hm | apply Hf].
Qed.

Lemma respects_try_except {A} (m h : M A) :
  respects R m -> respects R h -> respects R (try_except m h).
Proof.
  intros Hm Hh w. unfold try_except. specialize (Hm w).
  destruct (m w) as [[a|e] w1]; simpl in *; [done|].
  etrans; [exact Hm | apply Hh].
Qed.

Lemma respects_for_enumerate {A St} (body : nat -> A -> St -> M (A * St)) :
  (forall i x s, respects R (body i x s)) ->
  forall l i s, respects R (for_enumerate body i l s).
Proof.
  intros Hb l. induction l as [|x l IH]; intros i s; simpl.
  - apply respects_ret.
  - apply respects_bind; [apply Hb|]. intros r.
    apply respects_bind; [apply IH|]. intros r'. apply respects_ret.
Qed.

Hypothesis respects_print : forall s, respects R (print_stderr s).

Lemma respects_print_fields keys d : respects R (print_fields keys d).
Proof.
  induction keys as [|[f v] keys IH]; simpl.
  - apply respects_ret.
  - apply respects_bind; [apply respects_print | intros _; apply IH].
Qed.

Lemma respects_entry_size ds text sz :
  respects R
    (try_except (lift (shifted_size ds sz))
       (bind (print_stderr
                ("Unrecognised size entry for text " +:+ py_str text
                 +:+ ":" +:+ newline +:+ "size = " +:+ py_str sz
                 +:+ newline +:+ "Defaulting to default size" +:+ newline))
             (fun _ => ret ds))).
Proof.
  apply respects_try_except; [apply respects_lift|].
  apply respects_bind; [apply respects_print|]. intros _. apply respects_ret.
Qed.

Hypothesis respects_set_hidden : forall b, respects R (set_exists_hidden b).

Lemma respects_make_entry e ds hide style :
  respects R (make_entry e ds hide style).
Proof.
  destruct e as [v|d]; simpl.
  - apply respects_bind; [apply respects_lift|]. intros s. apply respects_lift.
  - destruct (dict_get d "text") as [text|].
    + apply respects_bind.
      { destruct (dict_get d "size");
          [apply respects_entry_size | apply respects_ret]. }
      intros size.
      destruct (from_option truthy false (dict_get d "hidden")).
      * apply respects_bind; [apply respects_set_hidden|]. intros _.
        repeat case_match; try apply respects_lift; try apply respects_raise;
          (apply respects_bind; [apply respects_lift|]; intros s;
           apply respects_lift).
      * apply respects_bind; [apply respects_lift|]. intros s.
        apply respects_lift.
    + apply respects_bind; [apply respects_print|]. intros _.
      apply respects_bind; [apply respects_print_fields|]. intros _.
      apply respects_lift.
Qed.

Lemma respects_md_row cells : forall row, respects R (md_row cells row).
Proof.
  induction cells as [|c cells IH]; intros row; simpl.
  - apply respects_ret.
  - apply respects_bind; [apply respects_make_entry|]. intros [s|].
    + apply IH.
    + apply respects_raise.
Qed.

Hypothesis respects_dsubs_set : forall k v, respects R (dsubs_set k v).
Hypothesis respects_dsubsmd_set : forall k v, respects R (dsubsmd_set k v).
Hypothesis respects_randbelow : forall n, respects R (randbelow n).

Lemma respects_dsubsmd_get k : respects R (dsubsmd_get k).
Proof.
  intros w. unfold dsubsmd_get. destruct (dsubsmd w !! k); reflexivity.
Qed.

Lemma respects_dsubsmd_setdefault k : respects R (dsubsmd_setdefault k).
Proof.
  intros w. unfold dsubsmd_setdefault.
  destruct (dsubsmd w !! k); [reflexivity | apply respects_dsubsmd_set].
Qed.

(** Chains the lemmas above through a sequence of steps. *)
Ltac respects_steps :=
  repeat first
    [ apply respects_ret | apply respects_raise | apply respects_lift
    | apply respects_make_entry | apply respects_dsubs_set
    | apply respects_dsubsmd_set | apply respects_dsubsmd_get
    | apply respects_dsubsmd_setdefault | apply respects_md_row
    | apply respects_randbelow
    | apply respects_bind; [|intros ?] ].

Lemma respects_triangle_fields card size hide :
  respects R (triangle_fields card size hide).
Proof. unfold triangle_fields. respects_steps. Qed.

Lemma respects_square_fields card size hide :
  respects R (square_fields card size hide).
Proof. unfold square_fields. respects_steps. Qed.

Lemma respects_randint a b : respects R (randint a b).
Proof. unfold randint. respects_steps. Qed.

Lemma respects_triangle_after_draw ss ps so po i solcard puz j rot :
  respects R (triangle_after_draw ss ps so po i solcard puz j rot).
Proof.
  unfold triangle_after_draw. respects_steps;
    apply respects_triangle_fields.
Qed.

Lemma respects_square_after_draw ss ps n so po i solcard puz j rot :
  respects R (square_after_draw ss ps n so po i solcard puz j rot).
Proof.
  unfold square_after_draw. respects_steps; apply respects_square_fields.
Qed.

Lemma respects_triangle_step ss ps ord so po i solcard puz :
  respects R (triangle_step ss ps ord so po i solcard puz).
Proof.
  unfold triangle_step.
  apply respects_bind; [apply respects_lift|]. intros j.
  apply respects_bind; [apply respects_randint|]. intros rot.
  apply respects_triangle_after_draw.
Qed.

Lemma respects_square_step ss ps n ord so po i solcard puz :
  respects R (square_step ss ps n ord so po i solcard puz).
Proof.
  unfold square_step.
  apply respects_bind; [apply respects_lift|]. intros j.
  apply respects_bind; [apply respects_randint|]. intros rot.
  apply respects_square_after_draw.
Qed.

Lemma respects_triangle_md puz : respects R (triangle_md puz).
Proof.
  induction puz as [|t puz IH]; simpl; [apply respects_ret|].
  respects_steps. apply IH.
Qed.

Lemma respects_square_md puz : respects R (square_md puz).
Proof.
  induction puz as [|t puz IH]; simpl; [apply respects_ret|].
  respects_steps. apply IH.
Qed.

(** A state reached before the end of a computation is related to the
    final state when what follows respects the relation. *)
Lemma reach_bind {A B} (m : M A) (f : A -> M B) w0 w :
  R w0 (snd (m w)) -> (forall a, respects R (f a)) ->
  R w0 (snd (bind m f w)).
Proof.
  intros Hm Hf. unfold bind. destruct (m w) as [[a|e] w1]; simpl in *.
  - etrans; [exact Hm | apply Hf].
  - done.
Qed.
End Respects.

(** ** Entry formatting *)

(** Turns boolean comparisons on [Z] in the context into propositions and
    closes the goal by linear arithmetic. *)
Ltac zbool :=
  repeat match goal with
    | H : (_ <? _) = true |- _ => apply Z.ltb_lt in H
    | H : (_ <? _) = false |- _ => apply Z.ltb_ge in H
    | H : (_ <=? _) = true |- _ => apply Z.leb_le in H
    | H : (_ <=? _) = false |- _ => apply Z.leb_gt in H
    | H : (_ =? _) = true |- _ => apply Z.eqb_eq in H
    | H : (_ =? _) = false |- _ => apply Z.eqb_neq in H
    end;
  try lia.

#[local] Instance same_hidden_preorder : PreOrder same_hidden.
Proof.
  split; [by intros w; unfold same_hidden |].
  intros w1 w2 w3; unfold same_hidden; congruence.
Qed.

#[local] Instance more_draws_preorder : PreOrder more_draws.
Proof.
  split; [by intros w; unfold more_draws |].
  intros w1 w2 w3; unfold more_draws; lia.
Qed.

Lemma print_same_hidden s : respects same_hidden (print_stderr s).
Proof. by intros w. Qed.

(** The size computation of [make_entry] never raises: the handler of
    the bare [except] absorbs every exception of the [try] body. *)
Lemma entry_size_returns ds text sz w :
  exists size w1,
    try_except (lift (shifted_size ds sz))
      (bind (print_stderr
               ("Unrecognised size entry for text " +:+ py_str text
                +:+ ":" +:+ newline +:+ "size = " +:+ py_str sz
                +:+ newline +:+ "Defaulting to default size" +:+ newline))
            (fun _ => ret ds)) w = (Ok size, w1)
    /\ (size = ds \/
        exists z, size = Some z /\ 0 <= z < Z.of_nat (length sizes)).
Proof.
  unfold try_except, lift, shifted_size.
  destruct (py_int sz) as [n|e]; [|simpl; eauto].
  destruct ds as [d|]; [|simpl; eauto].
  eexists _, _; split; [reflexivity|]. right. eexists; split; [reflexivity|].
  simpl length. repeat case_match; zbool.
Qed.

(** C7 (as amended).  Formatting a dict entry that has a text and a true
    ["hidden"] value sets [exists_hidden], whatever the hide mode, also
    ['ignore']; formatting any other entry leaves the flag as it was. *)
Theorem make_entry_exists_hidden e ds hide style w :
  exists_hidden (snd (make_entry e ds hide style w))
  = if flagged_hidden e then true else exists_hidden w.
Proof.
  assert (forall size text w1,
    exists_hidden (snd (
      (if from_option truthy false (dict_get (match e with Dict d => d | _ => [] end) "hidden") then
         set_exists_hidden true ;;;
         if String.eqb hide "hide" then
           lift (make_entry_util (SStr EmptyString) EmptyString false style)
         else if String.eqb hide "mark" then
           s <- lift (sizes_at size) ;;
           lift (make_entry_util text s true style)
         else if String.eqb hide "ignore" then
           s <- lift (sizes_at size) ;;
           lift (make_entry_util text s false style)
         else
           raise (SystemExit "This should not happen: bad hide parameter")
       else
         s <- lift (sizes_at size) ;;
         lift (make_entry_util text s false style)) w1))
    = if from_option truthy false (dict_get (match e with Dict d => d | _ => [] end) "hidden")
      then true else exists_hidden w1) as Htail.
  { intros size text w1.
    destruct (from_option truthy false _);
      unfold bind, lift, raise, set_exists_hidden; simpl;
      repeat case_match; simplify_eq/=; done. }
  destruct e as [v|d]; unfold make_entry, flagged_hidden; cbv beta iota.
  - unfold bind, lift. by destruct (sizes_at ds).
  - cbv beta iota in Htail.
    destruct (dict_get d "text") as [text|] eqn:Htext.
    + unfold bind at 1.
      destruct (dict_get d "size") as [sz|].
      * destruct (entry_size_returns ds text sz w) as (size & w1 & Hsz & _).
        pose proof (respects_entry_size same_hidden print_same_hidden
                      ds text sz w) as Hw1.
        rewrite Hsz in Hw1 |- *. cbv beta iota.
        simpl in Hw1. unfold same_hidden in Hw1.
        rewrite Htail. by rewrite Hw1.
      * unfold ret. cbv beta iota. apply Htail.
    + pose proof (respects_bind same_hidden _ _
        (print_same_hidden ("No " +:+ dquote +:+ "text" +:+ dquote
                        +:+ " field in entry in data file.  Rest of data is:"
                        +:+ newline))
        (fun _ => respects_bind same_hidden _ _
           (respects_print_fields same_hidden print_same_hidden d d)
           (fun _ => respects_lift same_hidden
                       (make_entry_util (SStr EmptyString) EmptyString false style)))) as H.
      apply H.
Qed.

(** C7: the claim fails for the hide mode ['ignore']: the flag goes from
    false to true. *)
Lemma ignore_mode_sets_exists_hidden :
  exists_hidden
    (snd (make_entry (Dict [("text", SStr "x"); ("hidden", SBool true)])
            (Some 4) "ignore" "table" (fresh_world [])))
  <> exists_hidden (fresh_world []).
Proof. vm_compute. discriminate. Qed.

(** Both templates of [img2tex] start with the escape [\i], which the
    template parser rejects: the function returns the text unchanged when
    it holds no image marker and raises otherwise. *)
Lemma img2tex_spec v :
  img2tex v =
  match img_re_search (py_str v) with
  | None => Ok (py_str v)
  | Some _ => Raise (ReError "bad escape \i")
  end.
Proof.
  unfold img2tex. generalize (String.length (py_str v)) as fuel.
  generalize (py_str v) as text. intros text fuel.
  destruct fuel; simpl;
    destruct (img_re_search text) as [[pre [[caption img] rest]]|]; try done;
    unfold img_re_sub1; by destruct (negb (caption =? EmptyString)%string).
Qed.

Lemma make_entry_util_no_exit text size mark style msg :
  make_entry_util text size mark style <> Raise (SystemExit msg).
Proof.
  unfold make_entry_util. rewrite img2tex_spec.
  repeat case_match; simpl; congruence.
Qed.

Lemma sizes_at_no_exit size msg : sizes_at size <> Raise (SystemExit msg).
Proof.
  unfold sizes_at, py_index. repeat case_match; congruence.
Qed.

Lemma sizes_at_valid ds : valid_size ds -> exists s, sizes_at ds = Ok s.
Proof.
  intros (d & -> & Hd). unfold sizes_at, py_index. cbv zeta.
  change (Z.of_nat (length sizes)) with 10.
  destruct (d <? 0) eqn:E.
  - destruct (d + 10 <? 0) eqn:E'; [zbool|].
    destruct (sizes !! Z.to_nat (d + 10)) eqn:Hl; [by eauto|].
    apply lookup_ge_None in Hl. simpl in Hl. zbool.
  - rewrite E.
    destruct (sizes !! Z.to_nat d) eqn:Hl; [by eauto|].
    apply lookup_ge_None in Hl. simpl in Hl. zbool.
Qed.

Lemma make_entry_util_returns text size mark style :
  valid_style style ->
  style = "md" \/ img_re_search (py_str text) = None ->
  exists s, make_entry_util text size mark style = Ok (Some s).
Proof.
  intros Hstyle Himg. unfold make_entry_util. rewrite img2tex_spec.
  destruct Hstyle as [-> | [-> | ->]]; simpl;
    destruct Himg as [Hmd|Himg]; try discriminate; try rewrite Himg;
    destruct mark; simpl; eauto.
Qed.

Lemma print_fields_returns keys d w :
  exists w', print_fields keys d w = (Ok tt, w').
Proof.
  revert w. induction keys as [|[f v] keys IH]; intros w; simpl; [by eexists|].
  unfold bind, print_stderr. apply IH.
Qed.

(** Outcome of the two calls [sizes[size]] and [make_entry_util], which
    end every branch of [make_entry] but the hiding and the exit branch. *)
Lemma entry_tail_no_exit size text mark style w msg :
  fst (bind (lift (sizes_at size))
         (fun s => lift (make_entry_util text s mark style)) w)
  <> Raise (SystemExit msg).
Proof.
  unfold bind, lift. destruct (sizes_at size) eqn:E; simpl.
  - apply make_entry_util_no_exit.
  - intros [= ->]. by eapply sizes_at_no_exit.
Qed.

Lemma entry_tail_returns size text mark style w :
  valid_style style -> valid_size size ->
  style = "md" \/ img_re_search (py_str text) = None ->
  exists s,
    fst (bind (lift (sizes_at size))
           (fun s => lift (make_entry_util text s mark style)) w)
    = Ok (Some s).
Proof.
  intros Hstyle Hsize Himg. unfold bind, lift.
  destruct (sizes_at_valid size Hsize) as [s ->]. simpl.
  by apply make_entry_util_returns.
Qed.

(** The size computed for a dict entry that has a text. *)
Lemma entry_size_cases d ds text w :
  exists size w1,
    match dict_get d "size" with
    | Some sz =>
        try_except (lift (shifted_size ds sz))
          (bind (print_stderr
                   ("Unrecognised size entry for text " +:+ py_str text
                    +:+ ":" +:+ newline +:+ "size = " +:+ py_str sz
                    +:+ newline +:+ "Defaulting to default size"
                    +:+ newline))
                (fun _ => ret ds))
    | None => ret ds
    end w = (Ok size, w1)
    /\ (valid_size ds -> valid_size size).
Proof.
  destruct (dict_get d "size") as [sz|].
  - destruct (entry_size_returns ds text sz w) as (size & w1 & -> & Hs).
    eexists _, _; split; [done|]. intros Hds.
    destruct Hs as [->|(z & -> & Hz)]; [done|].
    exists z. split; [done|]. simpl in Hz. lia.
  - by eexists _, _.
Qed.

Lemma make_entry_no_exit e ds hide style w msg :
  valid_hide hide ->
  fst (make_entry e ds hide style w) <> Raise (SystemExit msg).
Proof.
  intros Hhide.
  destruct e as [v|d]; unfold make_entry; cbv beta iota.
  { apply entry_tail_no_exit. }
  destruct (dict_get d "text") as [text|].
  - destruct (entry_size_cases d ds text w) as (size & w1 & Hsz & _).
    rewrite (bind_step _ _ _ _ _ Hsz).
    destruct (from_option truthy false (dict_get d "hidden")).
    + unfold bind at 1. simpl (set_exists_hidden true w1). cbv beta iota.
      destruct Hhide as [-> | [-> | ->]]; simpl String.eqb; cbv iota.
      * unfold lift; cbn [fst]. apply make_entry_util_no_exit.
      * apply entry_tail_no_exit.
      * apply entry_tail_no_exit.
    + apply entry_tail_no_exit.
  - unfold bind, print_stderr at 1.
    match goal with
    | |- context [print_fields d d ?w1] =>
        destruct (print_fields_returns d d w1) as [w2 ->]
    end.
    unfold lift; cbn [fst]. apply make_entry_util_no_exit.
Qed.

Lemma make_entry_returns e ds hide style w :
  valid_hide hide -> valid_style style -> valid_size ds ->
  style = "md" \/ no_image e ->
  exists s, fst (make_entry e ds hide style w) = Ok (Some s).
Proof.
  intros Hhide Hstyle Hds Himg. unfold no_image in Himg.
  destruct e as [v|d]; unfold make_entry, entry_text in *; cbv beta iota in *.
  { by apply entry_tail_returns. }
  destruct (dict_get d "text") as [text|]; simpl default in Himg.
  - destruct (entry_size_cases d ds text w) as (size & w1 & Hsz & Hsize).
    rewrite (bind_step _ _ _ _ _ Hsz).
    destruct (from_option truthy false (dict_get d "hidden")).
    + unfold bind at 1. simpl (set_exists_hidden true w1). cbv beta iota.
      destruct Hhide as [-> | [-> | ->]]; simpl String.eqb; cbv iota.
      * unfold lift; cbn [fst].
        apply make_entry_util_returns; [done | by right].
      * apply entry_tail_returns; auto.
      * apply entry_tail_returns; auto.
    + apply entry_tail_returns; auto.
  - unfold bind, print_stderr at 1.
    match goal with
    | |- context [print_fields d d ?w1] =>
        destruct (print_fields_returns d d w1) as [w2 ->]
    end.
    unfold lift; cbn [fst].
    apply make_entry_util_returns; [done | by right].
Qed.

(** C9 (as amended).  With one of the three hide modes the exit branch is
    never taken, whatever the entry, the default size and the style; and
    [make_entry] returns a string when, besides, the style is one of the
    three styles, the default size is an index of [sizes], and the style
    is [md] or the text holds no image marker. *)
Theorem make_entry_hide_modes e ds hide style w :
  valid_hide hide ->
  (forall msg, fst (make_entry e ds hide style w) <> Raise (SystemExit msg))
  /\ (valid_style style -> valid_size ds ->
      style = "md" \/ no_image e ->
      exists s, fst (make_entry e ds hide style w) = Ok (Some s)).
Proof.
  intros Hhide. split.
  - intros msg. by apply make_entry_no_exit.
  - intros. by apply make_entry_returns.
Qed.

(** C9: the claim fails as stated.  A text that holds an image marker
    makes the pattern library raise; a style other than the three known
    ones yields Python's [None]; and a default size that is no integer
    (the text-size option is absent) raises a type error. *)
Lemma make_entry_not_always_a_string :
  (exists msg,
     fst (make_entry (Bare (SStr "![a](\g<9>)")) (Some 4) "mark" "table"
            (fresh_world [])) = Raise (ReError msg))
  /\ fst (make_entry (Bare (SStr "x")) (Some 4) "mark" "html"
            (fresh_world [])) = Ok None
  /\ fst (make_entry (Bare (SStr "x")) None "mark" "tikz"
            (fresh_world [])) = Raise TypeError.
Proof. split; [eexists|split]; vm_compute; reflexivity. Qed.

Lemma make_entry_hide_modes_witness :
  valid_hide "mark"
  /\ (forall msg,
        fst (make_entry (Dict [("text", SStr "x"); ("hidden", SBool true)])
               (Some 4) "mark" "tikz" (fresh_world []))
        <> Raise (SystemExit msg))
  /\ exists s,
       fst (make_entry (Dict [("text", SStr "x"); ("hidden", SBool true)])
              (Some 4) "mark" "tikz" (fresh_world [])) = Ok (Some s).
Proof.
  assert (valid_hide "mark") as Hhide by (right; left; reflexivity).
  split; [exact Hhide|].
  destruct (make_entry_hide_modes
              (Dict [("text", SStr "x"); ("hidden", SBool true)])
              (Some 4) "mark" "tikz" (fresh_world []) Hhide) as [Hexit Hret].
  split; [exact Hexit|].
  apply Hret.
  - right; left; reflexivity.
  - exists 4. split; [reflexivity | lia].
  - right. reflexivity.
Defined.

(** C10.  A dict entry whose ["hidden"] value is true, formatted in the
    [md] style with the hide mode ['hide'], comes out as the placeholder
    of a blank text: the same string as a blank entry, and not the empty
    text between its two padding spaces. *)
Theorem hidden_md_is_blank d ds w :
  from_option truthy false (dict_get d "hidden") = true ->
  fst (make_entry (Dict d) ds "hide" "md" w) = Ok (Some " (BLANK) ")
  /\ (forall hide' w',
        fst (make_entry (Bare (SStr EmptyString)) (Some 0) hide' "md" w')
        = fst (make_entry (Dict d) ds "hide" "md" w))
  /\ fst (make_entry (Dict d) ds "hide" "md" w)
     <> Ok (Some (" " +:+ EmptyString +:+ " ")).
Proof.
  intros Hhidden.
  assert (fst (make_entry (Dict d) ds "hide" "md" w) = Ok (Some " (BLANK) "))
    as Hblank.
  { unfold make_entry.
    destruct (dict_get d "text") as [text|].
    - unfold bind at 1.
      destruct (dict_get d "size") as [sz|].
      + destruct (entry_size_returns ds text sz w) as (size & w1 & -> & _).
        cbv beta iota. by rewrite Hhidden.
      + unfold ret. cbv beta iota. by rewrite Hhidden.
    - unfold bind, print_stderr at 1.
      match goal with
      | |- context [print_fields d d ?w1] =>
          destruct (print_fields_returns d d w1) as [w2 ->]
      end.
      done. }
  rewrite Hblank. split; [done|]. split; [by intros hide' w' | discriminate].
Qed.

Lemma hidden_md_is_blank_witness :
  from_option truthy false
    (dict_get [("text", SStr "secret"); ("hidden", SBool true)] "hidden") = true
  /\ fst (make_entry (Dict [("text", SStr "secret"); ("hidden", SBool true)])
            (Some 0) "hide" "md" (fresh_world [])) = Ok (Some " (BLANK) ").
Proof.
  split; [reflexivity|].
  apply (hidden_md_is_blank [("text", SStr "secret"); ("hidden", SBool true)]
           (Some 0) (fresh_world [])).
  reflexivity.
Defined.

(** ** Template substitution *)

Lemma str_app_cons c (a b : string) : String c a +:+ b = String c (a +:+ b).
Proof. reflexivity. Qed.

Lemma str_app_nil (b : string) : EmptyString +:+ b = b.
Proof. reflexivity. Qed.

(** Unfolds appends to a string that starts with known characters. *)
Ltac str_simpl := rewrite ?str_app_cons, ?str_app_nil.
Tactic Notation "str_simpl" "in" hyp(H) :=
  rewrite ?str_app_cons, ?str_app_nil in H.

Lemma str_length_app (a b : string) :
  String.length (a +:+ b) = (String.length a + String.length b)%nat.
Proof.
  induction a as [|x a IH]; str_simpl; simpl; [done | by f_equal].
Qed.

Lemma span_eq p s a b : span p s = (a, b) -> s = a +:+ b.
Proof.
  revert a b. induction s as [|c s IH]; simpl; intros a b.
  - by intros [= <- <-].
  - destruct (p c).
    + destruct (span p s) as [a' b'] eqn:E. intros [= <- <-].
      str_simpl. f_equal. by apply IH.
    + by intros [= <- <-].
Qed.

(** [span] stops exactly where the predicate first fails. *)
Lemma span_stop p a b :
  str_forall p a = true ->
  match b with EmptyString => True | String c _ => p c = false end ->
  span p (a +:+ b) = (a, b).
Proof.
  intros Ha Hb. induction a as [|c a IH]; str_simpl; simpl in *.
  - destruct b as [|c b]; [done|]. simpl. by rewrite Hb.
  - apply andb_true_iff in Ha as [-> Ha]. by rewrite IH.
Qed.

Lemma after_close_eq s t : after_close s = Some t -> s = ":>" +:+ t.
Proof.
  unfold after_close. intros H.
  repeat case_match; simplify_eq. reflexivity.
Qed.

Lemma rsplit_close_eq s a b :
  rsplit_close s = Some (a, b) -> s = a +:+ ":>" +:+ b.
Proof.
  revert a b. induction s as [|c s IH]; cbn [rsplit_close]; intros a b;
    [done|].
  destruct (rsplit_close s) as [[a' b']|].
  - intros [= <- <-]. str_simpl. f_equal. by apply IH.
  - destruct (after_close (String c s)) as [t|] eqn:E; [|done].
    intros [= <- <-]. by apply after_close_eq in E.
Qed.

(** A match consumes at least one character. *)
Lemma token_match_shorter s g0 g1 rest :
  token_match s = Some (g0, g1, rest) ->
  (String.length rest < String.length s)%nat.
Proof.
  unfold token_match. destruct s as [|c1 [|c2 s1]]; try done.
  { by repeat case_match. }
  destruct (span is_space s1) as [ws1 s2] eqn:E1.
  destruct (span not_space s2) as [run s3] eqn:E2.
  destruct (span is_space s3) as [ws2 s4] eqn:E3.
  apply span_eq in E1, E2, E3. subst s1 s2 s3.
  intros H. repeat case_match; simplify_eq.
  - match goal with H : after_close _ = Some _ |- _ =>
      apply after_close_eq in H; subst end.
    simpl. rewrite !str_length_app. simpl. lia.
  - match goal with H : rsplit_close _ = Some _ |- _ =>
      apply rsplit_close_eq in H; subst end.
    simpl. rewrite !str_length_app. simpl. rewrite ?str_length_app. simpl. lia.
Qed.

(** A match starts with [<:]. *)
Lemma token_match_other c s :
  Ascii.eqb c "<" && starts_colon s = false ->
  token_match (String c s) = None.
Proof.
  intros Hc. unfold token_match.
  destruct s as [|c' s]; [by repeat case_match|].
  destruct (Ascii.eqb_spec c "<") as [->|Hne].
  - simpl in Hc. destruct (Ascii.eqb_spec c' ":") as [->|Hne']; [done|].
    destruct c' as [[] [] [] [] [] [] [] []]; try done.
  - destruct c as [[] [] [] [] [] [] [] []]; try done.
Qed.

(** A token written with white space before its closing [:>]. *)
Lemma token_match_spaced ws1 name ws2 post :
  str_forall is_space ws1 = true ->
  str_forall not_space name = true -> name <> EmptyString ->
  str_forall is_space ws2 = true -> ws2 <> EmptyString ->
  token_match ("<:" +:+ ws1 +:+ name +:+ ws2 +:+ ":>" +:+ post)
  = Some ("<:" +:+ ws1 +:+ name +:+ ws2 +:+ ":>", name, post).
Proof.
  intros Hws1 Hname Hne Hws2 Hne2. str_simpl. simpl.
  rewrite (span_stop is_space ws1); [|done|].
  2: { destruct name as [|c name]; [done|]. str_simpl. simpl in *.
       apply andb_true_iff in Hname as [Hc _]. unfold not_space in Hc.
       by destruct (is_space c). }
  rewrite (span_stop not_space name); [|done|].
  2: { destruct ws2 as [|c ws2]; [done|]. str_simpl. simpl in *.
       apply andb_true_iff in Hws2 as [Hc _]. unfold not_space.
       by rewrite Hc. }
  rewrite (span_stop is_space ws2); [|done|done].
  reflexivity.
Qed.

(** With enough fuel the scan ends, and more fuel changes nothing. *)
Lemma re_sub_tokens_returns subs fuel :
  forall s w, (String.length s < fuel)%nat ->
  exists out w',
    re_sub_tokens fuel subs s w = (Ok out, w')
    /\ forall fuel', (String.length s < fuel')%nat ->
         re_sub_tokens fuel' subs s w = (Ok out, w').
Proof.
  induction fuel as [|fuel IH]; intros s w Hlen; [lia|].
  simpl. destruct (token_match s) as [[[g0 g1] rest]|] eqn:Hm.
  - pose proof (token_match_shorter _ _ _ _ Hm) as Hrest.
    assert (exists r w1, subtext subs g0 g1 w = (Ok r, w1)) as (r & w1 & Hsub).
    { unfold subtext. destruct (subs !! g1); by eexists _, _. }
    destruct (IH rest w1 ltac:(lia)) as (out & w' & Hrec & Hfuel).
    exists (default EmptyString r +:+ out), w'. split.
    + rewrite (bind_step _ _ _ _ _ Hsub), (bind_step _ _ _ _ _ Hrec). done.
    + intros [|fuel'] Hlen'; [lia|]. cbn [re_sub_tokens]. rewrite Hm.
      rewrite (bind_step _ _ _ _ _ Hsub).
      rewrite (bind_step _ _ _ _ _ (Hfuel fuel' ltac:(lia))). done.
  - destruct s as [|c s].
    + exists EmptyString, w. split; [done|]. intros [|fuel'] Hlen'; [simpl in *; lia|].
      done.
    + simpl in Hlen. destruct (IH s w ltac:(lia)) as (out & w' & Hrec & Hfuel).
      exists (String c out), w'. split.
      * by rewrite (bind_step _ _ _ _ _ Hrec).
      * intros [|fuel'] Hlen'; [lia|]. simpl in Hlen'.
        cbn [re_sub_tokens]. rewrite Hm.
        by rewrite (bind_step _ _ _ _ _ (Hfuel fuel' ltac:(lia))).
Qed.

Lemma losub_returns text subs w :
  exists out w', losub text subs w = (Ok out, w').
Proof.
  destruct (re_sub_tokens_returns subs (S (String.length text)) text w)
    as (out & w' & H & _); [lia | by eexists _, _].
Qed.

Lemma losub_fuel text subs w fuel :
  (String.length text < fuel)%nat ->
  re_sub_tokens fuel subs text w = losub text subs w.
Proof.
  intros Hlen.
  destruct (re_sub_tokens_returns subs fuel text w Hlen)
    as (out & w' & -> & Hfuel).
  unfold losub. by rewrite Hfuel by lia.
Qed.

(** Text in which no [<:] opens, even with what follows it, is copied. *)
Lemma losub_literal pre s subs w out w' :
  has_open pre = false -> starts_colon s = false ->
  losub s subs w = (Ok out, w') ->
  losub (pre +:+ s) subs w = (Ok (pre +:+ out), w').
Proof.
  intros Hpre Hcolon Hs.
  induction pre as [|c pre IH]; str_simpl; simpl in *; [done|].
  apply orb_false_iff in Hpre as [Hc Hpre].
  unfold losub. cbn [re_sub_tokens]. rewrite token_match_other.
  - unfold bind. rewrite losub_fuel by (simpl; lia).
    by rewrite (IH Hpre).
  - destruct pre as [|c' pre]; [|done].
    str_simpl. destruct (Ascii.eqb c "<"); [done|done].
Qed.

(** What [losub] does at a match. *)
Lemma losub_at_match s subs w g0 g1 rest :
  token_match s = Some (g0, g1, rest) ->
  losub s subs w =
  bind (subtext subs g0 g1)
       (fun r => bind (losub rest subs)
                      (fun t => ret (default EmptyString r +:+ t))) w.
Proof.
  intros Hm. unfold losub at 1. cbn [re_sub_tokens]. rewrite Hm.
  pose proof (token_match_shorter _ _ _ _ Hm) as Hlen.
  unfold bind. destruct (subtext subs g0 g1 w) as [[r|e] w1]; [|done].
  by rewrite losub_fuel by lia.
Qed.



(** ** Lists and the random generator *)

Lemma py_index_nonneg {A} (l : list A) z x :
  0 <= z -> py_index l z = Ok x <-> l !! Z.to_nat z = Some x.
Proof.
  intros Hz. unfold py_index. cbv zeta.
  destruct (z <? 0) eqn:E; [zbool|]. rewrite E.
  destruct (l !! Z.to_nat z); split; congruence.
Qed.

Lemma py_index_nat {A} (l : list A) (i : nat) x :
  py_index l (Z.of_nat i) = Ok x <-> l !! i = Some x.
Proof. rewrite py_index_nonneg by lia. by rewrite Nat2Z.id. Qed.

Lemma py_setitem_nonneg {A} (l l' : list A) z v :
  0 <= z -> py_setitem l z v = Ok l' ->
  l' = <[Z.to_nat z := v]> l /\ (Z.to_nat z < length l)%nat.
Proof.
  intros Hz. unfold py_setitem. cbv zeta.
  destruct (z <? 0) eqn:E; [zbool|]. rewrite E.
  destruct (Z.of_nat (length l) <=? z) eqn:E'; simpl; [done|].
  intros [= <-]. split; [done | zbool].
Qed.

Lemma randbelow_spec n w :
  exists r,
    randbelow n w = (Ok r, {| rng := tl (rng w); draws := S (draws w);
                              exists_hidden := exists_hidden w;
                              stderr := stderr w;
                              dsubs := dsubs w; dsubsmd := dsubsmd w |})
    /\ ((0 < n)%nat -> (r < n)%nat).
Proof.
  eexists. split; [reflexivity|]. intros Hn. apply Nat.mod_upper_bound. lia.
Qed.

Lemma randint_spec a b w :
  a <= b ->
  exists r w',
    randint a b w = (Ok r, w') /\ a <= r <= b
    /\ draws w' = S (draws w) /\ exists_hidden w' = exists_hidden w
    /\ stderr w' = stderr w /\ dsubs w' = dsubs w /\ dsubsmd w' = dsubsmd w.
Proof.
  intros Hab. unfold randint.
  destruct (randbelow_spec (Z.to_nat (b - a + 1)) w) as (r & Hr & Hlt).
  rewrite (bind_step _ _ _ _ _ Hr). eexists _, _. split; [reflexivity|].
  simpl. specialize (Hlt ltac:(lia)). repeat split; lia.
Qed.

(** The shuffle returns a permutation of its argument after one draw for
    each position but the first. *)
Lemma shuffle_from_spec {A} (k : nat) :
  forall (x : list A) w, (k < length x)%nat ->
  exists x' w',
    shuffle_from k x w = (Ok x', w') /\ x' ≡ₚ x
    /\ draws w' = (draws w + k)%nat /\ exists_hidden w' = exists_hidden w
    /\ stderr w' = stderr w /\ dsubs w' = dsubs w /\ dsubsmd w' = dsubsmd w.
Proof.
  induction k as [|k IH]; intros x w Hk; simpl.
  { exists x, w. repeat split; [done | lia]. }
  destruct (randbelow_spec (S (S k)) w) as (j & Hj & Hlt).
  specialize (Hlt ltac:(lia)).
  rewrite (bind_step _ _ _ _ _ Hj).
  destruct (lookup_lt_is_Some_2 x (S k) Hk) as [xi Hxi].
  destruct (lookup_lt_is_Some_2 x j ltac:(lia)) as [xj Hxj].
  rewrite Hxi, Hxj.
  destruct (IH (<[j:=xi]> (<[S k:=xj]> x))
              {| rng := tl (rng w); draws := S (draws w);
                 exists_hidden := exists_hidden w; stderr := stderr w;
                 dsubs := dsubs w; dsubsmd := dsubsmd w |})
    as (x' & w' & -> & Hperm & Hd & Hh & He & Hs & Hm).
  { rewrite !length_insert. lia. }
  exists x', w'. split; [done|]. simpl in *. repeat split; try done; [|lia].
  rewrite Hperm. by apply Permutation_insert_swap.
Qed.

Lemma shuffle_spec {A} (x : list A) w :
  exists x' w',
    shuffle x w = (Ok x', w') /\ x' ≡ₚ x
    /\ draws w' = (draws w + (length x - 1))%nat
    /\ exists_hidden w' = exists_hidden w
    /\ stderr w' = stderr w /\ dsubs w' = dsubs w /\ dsubsmd w' = dsubsmd w.
Proof.
  unfold shuffle. destruct x as [|a x].
  - exists [], w. simpl. repeat split; [done | lia].
  - apply shuffle_from_spec. simpl. lia.
Qed.

Lemma py_range_length n : length (py_range n) = n.
Proof. unfold py_range. by rewrite length_fmap, length_seq. Qed.

Lemma elem_of_py_range n z :
  z ∈ py_range n <-> 0 <= z < Z.of_nat n.
Proof.
  unfold py_range. rewrite list_elem_of_fmap. split.
  - intros (i & -> & Hi). apply elem_of_seq in Hi. lia.
  - intros Hz. exists (Z.to_nat z). split; [lia|]. apply elem_of_seq. lia.
Qed.

Lemma py_range_NoDup n : NoDup (py_range n).
Proof.
  unfold py_range. apply NoDup_fmap; [apply _ | apply NoDup_seq].
Qed.

(** ** The placement loop *)

Section Placement.
Variable build : list cell -> Z -> Z -> result (list cell).
Variable angle : Z -> Z -> Z -> result Z.
Variable label : Z -> string.
Variable maxrot : Z.
Variable ord : list Z.
Variable body : nat -> list cell -> list (list cell)
                -> M (list cell * list (list cell)).

Hypothesis body_spec : forall i x s w r w',
  body i x s w = (Ok r, w') ->
  step_spec build angle label maxrot ord i x (fst r) s (snd r).
Hypothesis order_NoDup : NoDup ord.
Hypothesis order_nonneg : forall j, j ∈ ord -> 0 <= j.

(** After the loop every card it went through has been placed, and the
    positions of the other cards hold what they held before. *)
Lemma for_enumerate_placed rings :
  forall i puz w sols puz' w',
  for_enumerate body i rings puz w = (Ok (sols, puz'), w') ->
  length puz' = length puz /\ length sols = length rings
  /\ (forall k ring, rings !! k = Some ring ->
      exists solcard',
        sols !! k = Some solcard'
        /\ placed_at build angle label maxrot ord puz' (i + k) ring solcard')
  /\ (forall p,
        (forall k, (k < length rings)%nat ->
                   ord !! (i + k)%nat <> Some (Z.of_nat p)) ->
        puz' !! p = puz !! p).
Proof.
  induction rings as [|ring rings IH]; intros i puz w sols puz' w' Hrun.
  { simpl in Hrun. injection Hrun as <- <- <-.
    repeat split; done. }
  simpl in Hrun.
  apply bind_ok in Hrun as ([sc puz1] & w1 & Hstep & Hrun).
  apply bind_ok in Hrun as ([sols1 puz2] & w2 & Hloop & Hrun).
  injection Hrun as <- <- <-. simpl in *.
  apply body_spec in Hstep. simpl in Hstep.
  destruct Hstep
    as (j & rot & newcard & a & Hj & Hrot & Hbuild & Hset & Hangle & ->).
  simpl in *. apply py_index_nat in Hj.
  assert (0 <= j) as Hj0 by (apply order_nonneg; by eapply list_elem_of_lookup_2).
  apply py_setitem_nonneg in Hset as [-> Hlt]; [|done].
  destruct (IH _ _ _ _ _ _ Hloop) as (Hlen & Hlens & Hplaced & Hframe).
  rewrite length_insert in Hlen.
  assert (puz2 !! Z.to_nat j = Some newcard) as Hnew.
  { rewrite Hframe; [by apply list_lookup_insert_eq|].
    intros k Hk Hk'. rewrite Z2Nat.id in Hk' by done.
    pose proof (NoDup_lookup _ _ _ _ order_NoDup Hj Hk'). lia. }
  repeat split; [done | by rewrite Hlens | |].
  - intros [|k] ring' Hk; simpl in Hk.
    + injection Hk as <-. eexists. split; [done|].
      exists j, rot, newcard, a. rewrite Nat.add_0_r.
      split_and!; try done; lia.
    + destruct (Hplaced k ring' Hk) as (sc & Hsc & Hp).
      exists sc. split; [done|].
      by replace (i + S k)%nat with (S i + k)%nat by lia.
  - intros p Hp. rewrite Hframe.
    + apply list_lookup_insert_ne. intros <-.
      apply (Hp 0%nat); [lia|]. rewrite Nat.add_0_r, Z2Nat.id by done. done.
    + intros k Hk. replace (S i + k)%nat with (i + S k)%nat by lia.
      apply Hp. lia.
Qed.
End Placement.

(** ** The two assignment functions *)

(** Takes apart a successful run: one hypothesis for each step. *)
Ltac inv_run H :=
  repeat
    (let a := fresh "v" in
     let w := fresh "w" in
     let H1 := fresh "Hstep" in
     apply bind_ok in H as (a & w & H1 & H);
     try (apply lift_ok in H1 as [H1 ->])).

Lemma layout_key_ok {A} key (field : option A) w v w' :
  layout_key key field w = (Ok v, w') -> field = Some v /\ w' = w.
Proof. destruct field; simpl; [by intros [= -> ->] | done]. Qed.

Lemma resolve_cards_length pairs edges cards rings :
  resolve_cards pairs edges cards = Ok rings -> length rings = length cards.
Proof.
  revert rings. induction cards as [|card cards IH]; simpl; intros rings.
  - by intros [= <-].
  - intros H. apply rbind_ok in H as (newcard & _ & H).
    apply rbind_ok in H as (rest & Hrest & H). injection H as <-.
    simpl. f_equal. by apply IH.
Qed.

Lemma triangle_step_spec ss ps ord solorient puzorient i x s w r w' :
  triangle_step ss ps ord solorient puzorient i x s w = (Ok r, w') ->
  step_spec (fun solcard rot j => triangle_puzcard solcard rot j puzorient)
            (fun i rot j => triangle_angle i rot j solorient puzorient)
            (fun j => cardnum (j + 1)) 2 ord i x (fst r) s (snd r).
Proof.
  unfold triangle_step. intros H.
  apply bind_ok in H as (j & w1 & Hj & H). apply lift_ok in Hj as [Hj ->].
  apply bind_ok in H as (rot & w2 & Hrot & H).
  destruct (randint_spec 0 2 w ltac:(lia)) as (rot' & w2' & Hr & Hrange & _).
  rewrite Hr in Hrot. injection Hrot as -> ->.
  inv_run H. injection H as <- <-. simpl.
  eexists j, rot, _, _. split_and!; try eassumption; try done; lia.
Qed.

Lemma square_step_spec ss ps n ord solorient puzorient i x s w r w' :
  square_step ss ps n ord solorient puzorient i x s w = (Ok r, w') ->
  step_spec (fun solcard rot j => square_puzcard solcard rot j n puzorient)
            (fun i rot j => square_angle i rot j solorient puzorient)
            (fun j => cardnum (j + n + 1)) 3 ord i x (fst r) s (snd r).
Proof.
  unfold square_step. intros H.
  apply bind_ok in H as (j & w1 & Hj & H). apply lift_ok in Hj as [Hj ->].
  apply bind_ok in H as (rot & w2 & Hrot & H).
  destruct (randint_spec 0 3 w ltac:(lia)) as (rot' & w2' & Hr & Hrange & _).
  rewrite Hr in Hrot. injection Hrot as -> ->.
  inv_run H. injection H as <- <-. simpl.
  eexists j, rot, _, _. split_and!; try eassumption; try done; lia.
Qed.

(** What a successful run of [make_triangles] establishes. *)
Lemma make_triangles_ok data layout pairs edges w r w' :
  make_triangles data layout pairs edges w = (Ok r, w') ->
  exists cards rings solorient puzorient,
    triangleSolutionCards layout = Some cards
    /\ resolve_cards pairs edges cards = Ok rings
    /\ triangleSolutionOrientation layout = Some solorient
    /\ trianglePuzzleOrientation layout = Some puzorient
    /\ order r ≡ₚ py_range (length cards)
    /\ length (puzcards r) = length cards
    /\ length (solcards r) = length cards
    /\ length rings = length cards
    /\ forall i ring, rings !! i = Some ring ->
         triangle_placed solorient puzorient r i ring.
Proof.
  unfold make_triangles. intros H.
  apply bind_ok in H as (tcards & w1 & Htc & H).
  apply layout_key_ok in Htc as [Htc ->].
  apply bind_ok in H as (cards & w1 & Hc & H).
  apply layout_key_ok in Hc as [Hc ->].
  assert (cards = tcards) as -> by congruence.
  apply bind_ok in H as (rings & w1 & Hrings & H).
  apply lift_ok in Hrings as [Hrings ->].
  apply bind_ok in H as (solorient & w1 & Hso & H).
  apply layout_key_ok in Hso as [Hso ->].
  apply bind_ok in H as (puzorient & w1 & Hpo & H).
  apply layout_key_ok in Hpo as [Hpo ->].
  apply bind_ok in H as (ord & w1 & Hord & H).
  destruct (shuffle_spec (py_range (length tcards)) w)
    as (ord' & w1' & Hsh & Hperm & _).
  rewrite Hsh in Hord. injection Hord as -> ->.
  apply bind_ok in H as ([sols puz] & w2 & Hloop & H).
  inv_run H. injection H as <- <-.
  eapply for_enumerate_placed in Hloop
    as (Hlenp & Hlens & Hplaced & _);
    [|apply triangle_step_spec| |].
  2: { rewrite Hperm. apply py_range_NoDup. }
  2: { intros j Hj. rewrite Hperm in Hj. apply elem_of_py_range in Hj. lia. }
  pose proof (resolve_cards_length _ _ _ _ Hrings) as Hlenr.
  exists tcards, rings, solorient, puzorient. simpl in *.
  rewrite length_replicate in Hlenp.
  split_and!; try done; congruence.
Qed.

(** What a successful run of [make_squares] establishes. *)
Lemma make_squares_ok data layout pairs edges w r w' :
  make_squares data layout pairs edges w = (Ok r, w') ->
  exists tcards cards rings solorient puzorient,
    triangleSolutionCards layout = Some tcards
    /\ squareSolutionCards layout = Some cards
    /\ resolve_cards pairs edges cards = Ok rings
    /\ squareSolutionOrientation layout = Some solorient
    /\ squarePuzzleOrientation layout = Some puzorient
    /\ order r ≡ₚ py_range (length cards)
    /\ length (puzcards r) = length cards
    /\ length (solcards r) = length cards
    /\ length rings = length cards
    /\ forall i ring, rings !! i = Some ring ->
         square_placed (Z.of_nat (length tcards)) solorient puzorient
           r i ring.
Proof.
  unfold make_squares. intros H.
  apply bind_ok in H as (tcards & w1 & Htc & H).
  apply layout_key_ok in Htc as [Htc ->].
  apply bind_ok in H as (scards & w1 & Hsc & H).
  apply layout_key_ok in Hsc as [Hsc ->].
  apply bind_ok in H as (cards & w1 & Hc & H).
  apply layout_key_ok in Hc as [Hc ->].
  assert (cards = scards) as -> by congruence.
  apply bind_ok in H as (rings & w1 & Hrings & H).
  apply lift_ok in Hrings as [Hrings ->].
  apply bind_ok in H as (solorient & w1 & Hso & H).
  apply layout_key_ok in Hso as [Hso ->].
  apply bind_ok in H as (puzorient & w1 & Hpo & H).
  apply layout_key_ok in Hpo as [Hpo ->].
  apply bind_ok in H as (ord & w1 & Hord & H).
  destruct (shuffle_spec (py_range (length scards)) w)
    as (ord' & w1' & Hsh & Hperm & _).
  rewrite Hsh in Hord. injection Hord as -> ->.
  apply bind_ok in H as ([sols puz] & w2 & Hloop & H).
  inv_run H. injection H as <- <-.
  eapply for_enumerate_placed in Hloop
    as (Hlenp & Hlens & Hplaced & _);
    [|apply square_step_spec| |].
  2: { rewrite Hperm. apply py_range_NoDup. }
  2: { intros j Hj. rewrite Hperm in Hj. apply elem_of_py_range in Hj. lia. }
  pose proof (resolve_cards_length _ _ _ _ Hrings) as Hlenr.
  exists tcards, scards, rings, solorient, puzorient. simpl in *.
  rewrite length_replicate in Hlenp.
  split_and!; try done; congruence.
Qed.

(** ** The assignment is a bijection *)

Lemma permutation_bijective n ord :
  ord ≡ₚ py_range n -> bijective_order n ord.
Proof.
  intros Hperm.
  assert (length ord = n) as Hlen.
  { by rewrite Hperm, py_range_length. }
  assert (NoDup ord) as Hnd by (rewrite Hperm; apply py_range_NoDup).
  split_and!; [done | |].
  - intros i Hi. destruct (lookup_lt_is_Some_2 ord i) as [x Hx]; [lia|].
    assert (x ∈ py_range n) as Hin.
    { rewrite <- Hperm. by eapply list_elem_of_lookup_2. }
    apply elem_of_py_range in Hin. exists (Z.to_nat x).
    split; [lia|]. rewrite Hx. f_equal. lia.
  - intros j Hj.
    assert (Z.of_nat j ∈ ord) as Hin.
    { rewrite Hperm. apply elem_of_py_range. lia. }
    apply list_elem_of_lookup in Hin as [i Hi]. exists i.
    split_and!; [apply lookup_lt_Some in Hi; lia | done |].
    intros i' Hi'. by eapply NoDup_lookup.
Qed.

(** C1.  For every number of cards the shuffle returns an order that is
    a bijection between the indices of the solution cards and the puzzle
    positions.  In a run of [make_triangles] or of [make_squares] that
    completes, the order drawn is such a bijection, there are as many
    puzzle cards as solution cards, and the card at the position of
    solution card [i] is the one built from that card. *)
Theorem assignment_is_bijection data layout pairs edges w r w' :
  (forall n, exists ord w1,
     shuffle (py_range n) w = (Ok ord, w1) /\ bijective_order n ord)
  /\ (make_triangles data layout pairs edges w = (Ok r, w') ->
   exists cards rings solorient puzorient,
     triangleSolutionCards layout = Some cards
     /\ resolve_cards pairs edges cards = Ok rings
     /\ triangleSolutionOrientation layout = Some solorient
     /\ trianglePuzzleOrientation layout = Some puzorient
     /\ length rings = length cards
     /\ length (solcards r) = length cards
     /\ length (puzcards r) = length cards
     /\ bijective_order (length cards) (order r)
     /\ forall i ring, rings !! i = Some ring ->
          triangle_placed solorient puzorient r i ring)
  /\ (make_squares data layout pairs edges w = (Ok r, w') ->
      exists tcards cards rings solorient puzorient,
        triangleSolutionCards layout = Some tcards
        /\ squareSolutionCards layout = Some cards
        /\ resolve_cards pairs edges cards = Ok rings
        /\ squareSolutionOrientation layout = Some solorient
        /\ squarePuzzleOrientation layout = Some puzorient
        /\ length rings = length cards
        /\ length (solcards r) = length cards
        /\ length (puzcards r) = length cards
        /\ bijective_order (length cards) (order r)
        /\ forall i ring, rings !! i = Some ring ->
             square_placed (Z.of_nat (length tcards)) solorient puzorient
               r i ring).
Proof.
  split_and!; [|intros Hrun..].
  - intros n. destruct (shuffle_spec (py_range n) w) as (ord & w1 & H & Hp & _).
    exists ord, w1. split; [done | by apply permutation_bijective].
  - apply make_triangles_ok in Hrun
      as (cards & rings & so & po & ? & ? & ? & ? & Hperm & ? & ? & ? & ?).
    exists cards, rings, so, po.
    split_and!; try done. by apply permutation_bijective.
  - apply make_squares_ok in Hrun
      as (tc & cards & rings & so & po & ? & ? & ? & ? & ? & Hperm & ? & ? & ? & ?).
    exists tc, cards, rings, so, po.
    split_and!; try done. by apply permutation_bijective.
Qed.

Lemma assignment_is_bijection_witness :
  bijective_order 3
    (order (locals_of (make_triangles ∅ demo_layout demo_pairs demo_edges
                         (fresh_world [0; 2; 1; 1; 0]%nat)))).
Proof.
  pose (run := make_triangles ∅ demo_layout demo_pairs demo_edges
                 (fresh_world [0; 2; 1; 1; 0]%nat)).
  assert (make_triangles ∅ demo_layout demo_pairs demo_edges
            (fresh_world [0; 2; 1; 1; 0]%nat)
          = (Ok (locals_of run), snd run)) as Hrun
    by (vm_compute; reflexivity).
  destruct (assignment_is_bijection ∅ demo_layout demo_pairs demo_edges
              (fresh_world [0; 2; 1; 1; 0]%nat) (locals_of run) (snd run))
    as (_ & Ht & _).
  destruct (Ht Hrun)
    as (cards & rings & so & po & Hc & _ & _ & _ & _ & _ & _ & Hb & _).
  injection Hc as <-. exact Hb.
Defined.

(** ** Rotation of the ring *)

Lemma triangle_puzcard_inv ring rot j puzorient newcard :
  triangle_puzcard ring rot j puzorient = Ok newcard ->
  exists a b c n,
    py_index ring ((3 - rot) mod 3) = Ok a
    /\ py_index ring ((4 - rot) mod 3) = Ok b
    /\ py_index ring ((5 - rot) mod 3) = Ok c
    /\ table_at puzorient j 1 = Ok n
    /\ newcard = [a; b; c; CStr (cardnum (j + 1)); CNum n].
Proof.
  unfold triangle_puzcard, table_at. intros H.
  apply rbind_ok in H as (a & Ha & H). apply rbind_ok in H as (b & Hb & H).
  apply rbind_ok in H as (c & Hc & H). apply rbind_ok in H as (o & Ho & H).
  apply rbind_ok in H as (n & Hn & H). injection H as <-.
  exists a, b, c, n. rewrite Ho. simpl. by split_and!.
Qed.

Lemma square_puzcard_inv ring rot j ntc puzorient newcard :
  square_puzcard ring rot j ntc puzorient = Ok newcard ->
  exists a b c d n,
    py_index ring ((4 - rot) mod 4) = Ok a
    /\ py_index ring ((5 - rot) mod 4) = Ok b
    /\ py_index ring ((6 - rot) mod 4) = Ok c
    /\ py_index ring ((7 - rot) mod 4) = Ok d
    /\ table_at puzorient j 1 = Ok n
    /\ newcard = [a; b; c; d; CStr (cardnum (j + ntc + 1)); CNum n].
Proof.
  unfold square_puzcard, table_at. intros H.
  apply rbind_ok in H as (a & Ha & H). apply rbind_ok in H as (b & Hb & H).
  apply rbind_ok in H as (c & Hc & H). apply rbind_ok in H as (d & Hd & H).
  apply rbind_ok in H as (o & Ho & H).
  apply rbind_ok in H as (n & Hn & H). injection H as <-.
  exists a, b, c, d, n. rewrite Ho. simpl. by split_and!.
Qed.

Lemma py_index_in_range {A} (l : list A) z :
  0 <= z < Z.of_nat (length l) -> exists x, py_index l z = Ok x.
Proof.
  intros Hz. destruct (lookup_lt_is_Some_2 l (Z.to_nat z)) as [x Hx]; [lia|].
  exists x. apply py_index_nonneg; [lia | done].
Qed.

(** C2.  The list the code builds for a puzzle position holds, in slot
    [k] of its ring, slot [(k + len - rot) mod len] of the solution ring,
    for every ring and every rotation: the three triangle slots are
    [solcard[(3 - rot) % 3]], [solcard[(4 - rot) % 3]] and
    [solcard[(5 - rot) % 3]], the four square slots
    [solcard[(4 - rot) % 4]] to [solcard[(7 - rot) % 4]].  The list is
    built whenever the ring has the length of its shape and the puzzle
    orientation table has an entry for the position. *)
Theorem puzzle_ring_is_rotation ring rot j ntc puzorient :
  (forall newcard,
     triangle_puzcard ring rot j puzorient = Ok newcard ->
     rotated 3 rot ring newcard
     /\ exists a b c n,
          py_index ring ((3 - rot) mod 3) = Ok a
          /\ py_index ring ((4 - rot) mod 3) = Ok b
          /\ py_index ring ((5 - rot) mod 3) = Ok c
          /\ newcard = [a; b; c; CStr (cardnum (j + 1)); CNum n])
  /\ (forall newcard,
        square_puzcard ring rot j ntc puzorient = Ok newcard ->
        rotated 4 rot ring newcard
        /\ exists a b c d n,
             py_index ring ((4 - rot) mod 4) = Ok a
             /\ py_index ring ((5 - rot) mod 4) = Ok b
             /\ py_index ring ((6 - rot) mod 4) = Ok c
             /\ py_index ring ((7 - rot) mod 4) = Ok d
             /\ newcard = [a; b; c; d; CStr (cardnum (j + ntc + 1)); CNum n])
  /\ (forall n, table_at puzorient j 1 = Ok n ->
        (length ring = 3%nat ->
         exists newcard, triangle_puzcard ring rot j puzorient = Ok newcard)
        /\ (length ring = 4%nat ->
            exists newcard,
              square_puzcard ring rot j ntc puzorient = Ok newcard)).
Proof.
  split_and!.
  - intros newcard H.
    apply triangle_puzcard_inv in H as (a & b & c & n & Ha & Hb & Hc & _ & ->).
    split; [|by exists a, b, c, n].
    intros k Hk.
    assert (k = 0 \/ k = 1 \/ k = 2) as [-> | [-> | ->]] by lia.
    + exists a. split; [done|]. by replace (0 + 3 - rot) with (3 - rot) by lia.
    + exists b. split; [done|]. by replace (1 + 3 - rot) with (4 - rot) by lia.
    + exists c. split; [done|]. by replace (2 + 3 - rot) with (5 - rot) by lia.
  - intros newcard H.
    apply square_puzcard_inv in H
      as (a & b & c & d & n & Ha & Hb & Hc & Hd & _ & ->).
    split; [|by exists a, b, c, d, n].
    intros k Hk.
    assert (k = 0 \/ k = 1 \/ k = 2 \/ k = 3) as [-> | [-> | [-> | ->]]] by lia.
    + exists a. split; [done|]. by replace (0 + 4 - rot) with (4 - rot) by lia.
    + exists b. split; [done|]. by replace (1 + 4 - rot) with (5 - rot) by lia.
    + exists c. split; [done|]. by replace (2 + 4 - rot) with (6 - rot) by lia.
    + exists d. split; [done|]. by replace (3 + 4 - rot) with (7 - rot) by lia.
  - intros n Hn. unfold table_at in Hn.
    apply rbind_ok in Hn as (o & Ho & Hn).
    split; intros Hlen.
    + unfold triangle_puzcard.
      destruct (py_index_in_range ring ((3 - rot) mod 3)) as [a ->];
        [rewrite Hlen; pose proof (Z.mod_pos_bound (3 - rot) 3); lia|].
      destruct (py_index_in_range ring ((4 - rot) mod 3)) as [b ->];
        [rewrite Hlen; pose proof (Z.mod_pos_bound (4 - rot) 3); lia|].
      destruct (py_index_in_range ring ((5 - rot) mod 3)) as [c ->];
        [rewrite Hlen; pose proof (Z.mod_pos_bound (5 - rot) 3); lia|].
      simpl. rewrite Ho. simpl. rewrite Hn. simpl. by eexists.
    + unfold square_puzcard.
      destruct (py_index_in_range ring ((4 - rot) mod 4)) as [a ->];
        [rewrite Hlen; pose proof (Z.mod_pos_bound (4 - rot) 4); lia|].
      destruct (py_index_in_range ring ((5 - rot) mod 4)) as [b ->];
        [rewrite Hlen; pose proof (Z.mod_pos_bound (5 - rot) 4); lia|].
      destruct (py_index_in_range ring ((6 - rot) mod 4)) as [c ->];
        [rewrite Hlen; pose proof (Z.mod_pos_bound (6 - rot) 4); lia|].
      destruct (py_index_in_range ring ((7 - rot) mod 4)) as [d ->];
        [rewrite Hlen; pose proof (Z.mod_pos_bound (7 - rot) 4); lia|].
      simpl. rewrite Ho. simpl. rewrite Hn. simpl. by eexists.
Qed.

Lemma puzzle_ring_is_rotation_witness :
  rotated 4 3 scenario_ring
    [CEntry (str_entry "A1"); CEntry (str_entry "E1");
     CEntry (str_entry "E2"); CEntry (str_entry "Q1");
     CStr (cardnum (0 + 3 + 1)); CNum 0].
Proof.
  destruct (puzzle_ring_is_rotation scenario_ring 3 0 3 [[0; 0]])
    as (_ & Hsq & _).
  apply (Hsq _ eq_refl).
Defined.

(** C3: with [rot = 1] the puzzle ring of scenario A is not the ring the
    scenario gives. *)
Lemma scenario_A_ring_differs :
  rmap (take 4) (square_puzcard scenario_ring 1 0 3 [[0; 0]])
  <> Ok [CEntry (str_entry "A1"); CEntry (str_entry "E1");
         CEntry (str_entry "E2"); CEntry (str_entry "Q1")].
Proof. vm_compute. discriminate. Qed.

(** C3 (as amended).  For the ring Q1, A1, E1, E2 a rotation of 1 gives
    the puzzle ring E2, Q1, A1, E1, both in the list the code builds and
    in a whole run of [make_squares] that draws this rotation; the ring
    A1, E1, E2, Q1 is the one a rotation of 3 gives. *)
Theorem scenario_A_rot_1 :
  rmap (take 4) (square_puzcard scenario_ring 1 0 3 [[0; 0]])
  = Ok [CEntry (str_entry "E2"); CEntry (str_entry "Q1");
        CEntry (str_entry "A1"); CEntry (str_entry "E1")]
  /\ take 4 <$> puzcards (locals_of (make_squares ∅ demo_layout demo_pairs
                                       demo_edges (fresh_world [1%nat])))
     = [[CEntry (str_entry "E2"); CEntry (str_entry "Q1");
         CEntry (str_entry "A1"); CEntry (str_entry "E1")]]
  /\ rmap (take 4) (square_puzcard scenario_ring 3 0 3 [[0; 0]])
     = Ok [CEntry (str_entry "A1"); CEntry (str_entry "E1");
           CEntry (str_entry "E2"); CEntry (str_entry "Q1")].
Proof. split_and!; vm_compute; reflexivity. Qed.

(** ** The angle of the card number on the solution *)

Lemma normalize_angle_range angle : -180 <= normalize_angle angle < 180.
Proof.
  unfold normalize_angle. pose proof (Z.mod_pos_bound (angle + 180) 360). lia.
Qed.

Lemma triangle_angle_inv i rot j solorient puzorient a :
  triangle_angle i rot j solorient puzorient = Ok a ->
  exists n s b,
    table_at puzorient j 1 = Ok n /\ py_index solorient i = Ok s
    /\ table_at puzorient j 0 = Ok b /\ a = n + (s - b) - 120 * rot.
Proof.
  unfold triangle_angle, table_at. intros H.
  apply rbind_ok in H as (o & Ho & H). apply rbind_ok in H as (n & Hn & H).
  apply rbind_ok in H as (s & Hs & H). apply rbind_ok in H as (o' & Ho' & H).
  apply rbind_ok in H as (b & Hb & H). injection H as <-.
  assert (o' = o) as -> by congruence.
  exists n, s, b. rewrite Ho. simpl. by split_and!.
Qed.

Lemma square_angle_inv i rot j solorient puzorient a :
  square_angle i rot j solorient puzorient = Ok a ->
  exists n s b,
    table_at puzorient j 1 = Ok n /\ py_index solorient i = Ok s
    /\ table_at puzorient j 0 = Ok b /\ a = n + (s - b) - 90 * rot.
Proof.
  unfold square_angle, table_at. intros H.
  apply rbind_ok in H as (o & Ho & H). apply rbind_ok in H as (n & Hn & H).
  apply rbind_ok in H as (s & Hs & H). apply rbind_ok in H as (o' & Ho' & H).
  apply rbind_ok in H as (b & Hb & H). injection H as <-.
  assert (o' = o) as -> by congruence.
  exists n, s, b. rewrite Ho. simpl. by split_and!.
Qed.

(** C4: an angle of 180 degrees is normalised to -180, outside the
    interval of the claim. *)
Lemma angle_180_becomes_minus_180 :
  solcards (locals_of (make_triangles ∅ upside_down_layout demo_pairs
                         demo_edges (fresh_world [0%nat])))
  = [[CEntry (str_entry "Q1"); CEntry (str_entry "A1");
      CEntry (str_entry "E1"); CStr "1"; CNum (-180)]]
  /\ ~ (-180 < -180 <= 180).
Proof. split; [vm_compute; reflexivity | lia]. Qed.

(** C4 (as amended).  A normalised angle is at least -180 and less than
    180.  In a run that completes, the angle appended to solution card
    [i], placed at position [j] with rotation [rot], is
    [puzorient[j][1] + (solorient[i] - puzorient[j][0]) - step * rot]
    normalised, with a step of 120 for triangles and of 90 for squares,
    and so lies in that interval. *)
Theorem solution_angle_range data layout pairs edges w r w' :
  (forall angle, -180 <= normalize_angle angle < 180)
  /\ (make_triangles data layout pairs edges w = (Ok r, w') ->
   exists cards rings solorient puzorient,
     triangleSolutionCards layout = Some cards
     /\ resolve_cards pairs edges cards = Ok rings
     /\ triangleSolutionOrientation layout = Some solorient
     /\ trianglePuzzleOrientation layout = Some puzorient
     /\ length rings = length (solcards r)
     /\ forall i ring, rings !! i = Some ring ->
        exists j rot n s b,
          order r !! i = Some j /\ 0 <= rot <= 2
          /\ table_at puzorient j 1 = Ok n
          /\ py_index solorient (Z.of_nat i) = Ok s
          /\ table_at puzorient j 0 = Ok b
          /\ solcards r !! i
             = Some (ring ++ [CStr (cardnum (j + 1));
                              CNum (normalize_angle
                                      (n + (s - b) - 120 * rot))])
          /\ -180 <= normalize_angle (n + (s - b) - 120 * rot) < 180)
  /\ (make_squares data layout pairs edges w = (Ok r, w') ->
      exists tcards cards rings solorient puzorient,
        triangleSolutionCards layout = Some tcards
        /\ squareSolutionCards layout = Some cards
        /\ resolve_cards pairs edges cards = Ok rings
        /\ squareSolutionOrientation layout = Some solorient
        /\ squarePuzzleOrientation layout = Some puzorient
        /\ length rings = length (solcards r)
        /\ forall i ring, rings !! i = Some ring ->
           exists j rot n s b,
             order r !! i = Some j /\ 0 <= rot <= 3
             /\ table_at puzorient j 1 = Ok n
             /\ py_index solorient (Z.of_nat i) = Ok s
             /\ table_at puzorient j 0 = Ok b
             /\ solcards r !! i
                = Some (ring
                        ++ [CStr (cardnum (j + Z.of_nat (length tcards) + 1));
                            CNum (normalize_angle
                                    (n + (s - b) - 90 * rot))])
             /\ -180 <= normalize_angle (n + (s - b) - 90 * rot) < 180).
Proof.
  split_and!; [apply normalize_angle_range | intros Hrun..].
  - apply make_triangles_ok in Hrun
      as (cards & rings & so & po & ? & ? & ? & ? & _ & _ & ? & ? & Hplaced).
    exists cards, rings, so, po. split_and!; try done; [congruence|].
    intros i ring Hi.
    destruct (Hplaced i ring Hi)
      as (sc & Hsc & j & rot & nc & a & Ho & Hrot & _ & Ha & _ & ->).
    apply triangle_angle_inv in Ha as (n & s & b & Hn & Hs & Hb & ->).
    exists j, rot, n, s, b. split_and!; try done; try lia;
      apply normalize_angle_range.
  - apply make_squares_ok in Hrun
      as (tc & cards & rings & so & po & ? & ? & ? & ? & ? & _ & _ & ? & ?
          & Hplaced).
    exists tc, cards, rings, so, po. split_and!; try done; [congruence|].
    intros i ring Hi.
    destruct (Hplaced i ring Hi)
      as (sc & Hsc & j & rot & nc & a & Ho & Hrot & _ & Ha & _ & ->).
    apply square_angle_inv in Ha as (n & s & b & Hn & Hs & Hb & ->).
    exists j, rot, n, s, b. split_and!; try done; try lia;
      apply normalize_angle_range.
Qed.

(** ** Orientation tables of the wrong size *)

Lemma bind_ret {A B} (a : A) (f : A -> M B) w : bind (ret a) f w = f a w.
Proof. reflexivity. Qed.

Lemma bind_lift_ok {A B} (a : A) (f : A -> M B) w :
  bind (lift (Ok a)) f w = f a w.
Proof. reflexivity. Qed.

Lemma print_more_draws s : respects more_draws (print_stderr s).
Proof. intros w. unfold more_draws. simpl. lia. Qed.

Lemma set_hidden_more_draws b : respects more_draws (set_exists_hidden b).
Proof. intros w. unfold more_draws. simpl. lia. Qed.

Lemma dsubs_set_more_draws k v : respects more_draws (dsubs_set k v).
Proof. intros w. unfold more_draws. simpl. lia. Qed.

Lemma dsubsmd_set_more_draws k v : respects more_draws (dsubsmd_set k v).
Proof. intros w. unfold more_draws. simpl. lia. Qed.

Lemma randbelow_more_draws n : respects more_draws (randbelow n).
Proof. intros w. unfold more_draws. simpl. lia. Qed.

(** Closes the side conditions of the lemmas on [respects more_draws]. *)
Ltac more_draws_base :=
  first [ apply more_draws_preorder | apply print_more_draws
        | apply set_hidden_more_draws | apply dsubs_set_more_draws
        | apply dsubsmd_set_more_draws | apply randbelow_more_draws ].

(** Chains the lemmas on [respects more_draws] through the steps that
    follow the loops. *)
Ltac more_draws_steps :=
  repeat first
    [ more_draws_base
    | apply respects_ret | apply respects_raise | apply respects_lift
    | apply respects_dsubsmd_setdefault
    | apply respects_triangle_md | apply respects_square_md
    | apply respects_triangle_step | apply respects_square_step
    | apply respects_for_enumerate; [|intros ? ? ?]
    | apply respects_bind; [| |intros ?] ].

(** A run of [make_triangles] over a short table does not complete. *)
Lemma triangle_tables_cover_cards data layout pairs edges w r w'
    cards solorient puzorient :
  make_triangles data layout pairs edges w = (Ok r, w') ->
  triangleSolutionCards layout = Some cards ->
  triangleSolutionOrientation layout = Some solorient ->
  trianglePuzzleOrientation layout = Some puzorient ->
  (length cards <= length solorient /\ length cards <= length puzorient)%nat.
Proof.
  intros Hrun Hc Hso Hpo.
  apply make_triangles_ok in Hrun
    as (cards' & rings & so & po & Hc' & _ & Hso' & Hpo' & Hperm & _ & _
        & Hlen & Hplaced).
  assert (cards' = cards) as -> by congruence.
  assert (so = solorient) as -> by congruence.
  assert (po = puzorient) as -> by congruence.
  apply permutation_bijective in Hperm as (_ & _ & Hsurj).
  split.
  - destruct (decide (length cards <= length solorient)%nat) as [|Hlt];
      [done|].
    destruct (lookup_lt_is_Some_2 rings (length solorient)) as [ring Hring];
      [lia|].
    destruct (Hplaced _ _ Hring)
      as (sc & _ & j & rot & nc & a & _ & _ & _ & Ha & _).
    apply triangle_angle_inv in Ha as (n & s & b & _ & Hs & _).
    apply py_index_nat, lookup_lt_Some in Hs. lia.
  - destruct (decide (length cards <= length puzorient)%nat) as [|Hlt];
      [done|].
    destruct (Hsurj (length puzorient)) as (i & Hi & Ho & _); [lia|].
    destruct (lookup_lt_is_Some_2 rings i) as [ring Hring]; [lia|].
    destruct (Hplaced _ _ Hring)
      as (sc & _ & j & rot & nc & a & Ho' & _ & _ & Ha & _).
    assert (j = Z.of_nat (length puzorient)) as -> by congruence.
    apply triangle_angle_inv in Ha as (n & s & b & Hn & _).
    unfold table_at in Hn. apply rbind_ok in Hn as (o & Hn & _).
    apply py_index_nat, lookup_lt_Some in Hn. lia.
Qed.

Lemma square_tables_cover_cards data layout pairs edges w r w'
    cards solorient puzorient :
  make_squares data layout pairs edges w = (Ok r, w') ->
  squareSolutionCards layout = Some cards ->
  squareSolutionOrientation layout = Some solorient ->
  squarePuzzleOrientation layout = Some puzorient ->
  (length cards <= length solorient /\ length cards <= length puzorient)%nat.
Proof.
  intros Hrun Hc Hso Hpo.
  apply make_squares_ok in Hrun
    as (tc & cards' & rings & so & po & _ & Hc' & _ & Hso' & Hpo' & Hperm
        & _ & _ & Hlen & Hplaced).
  assert (cards' = cards) as -> by congruence.
  assert (so = solorient) as -> by congruence.
  assert (po = puzorient) as -> by congruence.
  apply permutation_bijective in Hperm as (_ & _ & Hsurj).
  split.
  - destruct (decide (length cards <= length solorient)%nat) as [|Hlt];
      [done|].
    destruct (lookup_lt_is_Some_2 rings (length solorient)) as [ring Hring];
      [lia|].
    destruct (Hplaced _ _ Hring)
      as (sc & _ & j & rot & nc & a & _ & _ & _ & Ha & _).
    apply square_angle_inv in Ha as (n & s & b & _ & Hs & _).
    apply py_index_nat, lookup_lt_Some in Hs. lia.
  - destruct (decide (length cards <= length puzorient)%nat) as [|Hlt];
      [done|].
    destruct (Hsurj (length puzorient)) as (i & Hi & Ho & _); [lia|].
    destruct (lookup_lt_is_Some_2 rings i) as [ring Hring]; [lia|].
    destruct (Hplaced _ _ Hring)
      as (sc & _ & j & rot & nc & a & Ho' & _ & _ & Ha & _).
    assert (j = Z.of_nat (length puzorient)) as -> by congruence.
    apply square_angle_inv in Ha as (n & s & b & Hn & _).
    unfold table_at in Hn. apply rbind_ok in Hn as (o & Hn & _).
    apply py_index_nat, lookup_lt_Some in Hn. lia.
Qed.

(** Once the cards are read, a run of [make_triangles] over at least one
    card draws the order and a first rotation, whatever happens next. *)
Lemma make_triangles_draws data layout pairs edges w
    cards rings solorient puzorient :
  triangleSolutionCards layout = Some cards ->
  resolve_cards pairs edges cards = Ok rings ->
  triangleSolutionOrientation layout = Some solorient ->
  trianglePuzzleOrientation layout = Some puzorient ->
  (0 < length cards)%nat ->
  (draws w + length cards
   <= draws (snd (make_triangles data layout pairs edges w)))%nat.
Proof.
  intros Hc Hrings Hso Hpo Hpos.
  pose proof (resolve_cards_length _ _ _ _ Hrings) as Hlen.
  unfold make_triangles. rewrite Hc, Hso, Hpo. cbn [layout_key].
  rewrite !bind_ret, Hrings, bind_lift_ok, !bind_ret.
  destruct (shuffle_spec (py_range (length cards)) w)
    as (ord & w1 & Hsh & Hperm & Hd1 & _).
  rewrite (bind_step _ _ _ _ _ Hsh). rewrite py_range_length in Hd1.
  destruct rings as [|ring rings]; [simpl in Hlen; lia|].
  destruct ord as [|j0 ord].
  { apply Permutation_length in Hperm. rewrite py_range_length in Hperm.
    simpl in Hperm. lia. }
  destruct (randint_spec 0 2 w1 ltac:(lia))
    as (rot & w2 & Hr & _ & Hd2 & _).
  cut (more_draws w2
         (snd (bind
            (for_enumerate
               (triangle_step
                  (getopt (layout_opts layout) data ∅ "solutionTextSize" None)
                  (getopt (layout_opts layout) data ∅ "puzzleTextSize" None)
                  (j0 :: ord) solorient puzorient)
               0 (ring :: rings) (replicate (length cards) []))
            (fun r =>
               dsubsmd_setdefault "puzcards3" ;;;
               dsubsmd_setdefault "puzcards4" ;;;
               triangle_md (snd r) ;;;
               ret {| solcards := fst r; order := j0 :: ord;
                      puzcards := snd r |}) w1))).
  { unfold more_draws. lia. }
  apply reach_bind; [more_draws_base | | intros r; more_draws_steps].
  cbn [for_enumerate].
  apply reach_bind; [more_draws_base | | intros r; more_draws_steps].
  unfold triangle_step.
  change (py_index (j0 :: ord) (Z.of_nat 0)) with (Ok (A:=Z) j0).
  rewrite bind_lift_ok, (bind_step _ _ _ _ _ Hr).
  apply (respects_triangle_after_draw more_draws); more_draws_base.
Qed.

Lemma make_squares_draws data layout pairs edges w
    tcards cards rings solorient puzorient :
  triangleSolutionCards layout = Some tcards ->
  squareSolutionCards layout = Some cards ->
  resolve_cards pairs edges cards = Ok rings ->
  squareSolutionOrientation layout = Some solorient ->
  squarePuzzleOrientation layout = Some puzorient ->
  (0 < length cards)%nat ->
  (draws w + length cards
   <= draws (snd (make_squares data layout pairs edges w)))%nat.
Proof.
  intros Htc Hc Hrings Hso Hpo Hpos.
  pose proof (resolve_cards_length _ _ _ _ Hrings) as Hlen.
  unfold make_squares. rewrite Htc, Hc, Hso, Hpo. cbn [layout_key].
  rewrite !bind_ret, Hrings, bind_lift_ok, !bind_ret.
  destruct (shuffle_spec (py_range (length cards)) w)
    as (ord & w1 & Hsh & Hperm & Hd1 & _).
  rewrite (bind_step _ _ _ _ _ Hsh). rewrite py_range_length in Hd1.
  destruct rings as [|ring rings]; [simpl in Hlen; lia|].
  destruct ord as [|j0 ord].
  { apply Permutation_length in Hperm. rewrite py_range_length in Hperm.
    simpl in Hperm. lia. }
  destruct (randint_spec 0 3 w1 ltac:(lia))
    as (rot & w2 & Hr & _ & Hd2 & _).
  cut (more_draws w2
         (snd (bind
            (for_enumerate
               (square_step
                  (getopt (layout_opts layout) data ∅ "solutionTextSize" None)
                  (getopt (layout_opts layout) data ∅ "puzzleTextSize" None)
                  (Z.of_nat (length tcards))
                  (j0 :: ord) solorient puzorient)
               0 (ring :: rings) (replicate (length cards) []))
            (fun r =>
               dsubsmd_setdefault "puzcards4" ;;;
               square_md (snd r) ;;;
               ret {| solcards := fst r; order := j0 :: ord;
                      puzcards := snd r |}) w1))).
  { unfold more_draws. lia. }
  apply reach_bind; [more_draws_base | | intros r; more_draws_steps].
  cbn [for_enumerate].
  apply reach_bind; [more_draws_base | | intros r; more_draws_steps].
  unfold square_step.
  change (py_index (j0 :: ord) (Z.of_nat 0)) with (Ok (A:=Z) j0).
  rewrite bind_lift_ok, (bind_step _ _ _ _ _ Hr).
  apply (respects_square_after_draw more_draws); more_draws_base.
Qed.

(** Entries of a table beyond the number of cards are never read. *)
Lemma py_index_take {A} (l : list A) n z :
  0 <= z < Z.of_nat n -> py_index (take n l) z = py_index l z.
Proof.
  intros Hz. unfold py_index. cbv zeta.
  destruct (z <? 0) eqn:E; [zbool|]. rewrite E.
  rewrite lookup_take_lt by lia. done.
Qed.

Lemma for_enumerate_ext {A St} (body1 body2 : nat -> A -> St -> M (A * St)) l :
  forall i s w,
  (forall k x s w, (k < length l)%nat ->
     body1 (i + k)%nat x s w = body2 (i + k)%nat x s w) ->
  for_enumerate body1 i l s w = for_enumerate body2 i l s w.
Proof.
  induction l as [|x l IH]; intros i s w Hext; simpl; [done|].
  unfold bind.
  specialize (Hext 0%nat x s w ltac:(simpl; lia)) as Hx.
  rewrite Nat.add_0_r in Hx. rewrite Hx.
  destruct (body2 i x s w) as [[r|e] w1]; [|done].
  rewrite IH; [done|]. intros k x' s' w' Hk.
  replace (S i + k)%nat with (i + S k)%nat by lia. apply Hext. simpl. lia.
Qed.

Lemma triangle_puzcard_take x rot j po n :
  0 <= j < Z.of_nat n ->
  triangle_puzcard x rot j (take n po) = triangle_puzcard x rot j po.
Proof. intros Hj. unfold triangle_puzcard. by rewrite py_index_take. Qed.

Lemma triangle_angle_take i rot j so po n :
  0 <= j < Z.of_nat n -> (i < n)%nat ->
  triangle_angle (Z.of_nat i) rot j (take n so) (take n po)
  = triangle_angle (Z.of_nat i) rot j so po.
Proof.
  intros Hj Hi. unfold triangle_angle. by rewrite !py_index_take by lia.
Qed.

Lemma square_puzcard_take x rot j ntc po n :
  0 <= j < Z.of_nat n ->
  square_puzcard x rot j ntc (take n po) = square_puzcard x rot j ntc po.
Proof. intros Hj. unfold square_puzcard. by rewrite py_index_take. Qed.

Lemma square_angle_take i rot j so po n :
  0 <= j < Z.of_nat n -> (i < n)%nat ->
  square_angle (Z.of_nat i) rot j (take n so) (take n po)
  = square_angle (Z.of_nat i) rot j so po.
Proof.
  intros Hj Hi. unfold square_angle. by rewrite !py_index_take by lia.
Qed.

Lemma triangle_step_take ss ps ord so po n i x s w :
  (forall j, j ∈ ord -> 0 <= j < Z.of_nat n) -> (i < n)%nat ->
  triangle_step ss ps ord (take n so) (take n po) i x s w
  = triangle_step ss ps ord so po i x s w.
Proof.
  intros Hord Hi.
  change (bind (lift (py_index ord (Z.of_nat i)))
            (fun j => bind (randint 0 2)
               (fun rot => triangle_after_draw ss ps (take n so) (take n po)
                             i x s j rot)) w
          = bind (lift (py_index ord (Z.of_nat i)))
              (fun j => bind (randint 0 2)
                 (fun rot => triangle_after_draw ss ps so po i x s j rot)) w).
  destruct (py_index ord (Z.of_nat i)) as [j|e] eqn:Hj; [|reflexivity].
  rewrite !bind_lift_ok. unfold bind.
  destruct (randint 0 2 w) as [[rot|e] w1]; [|reflexivity].
  assert (0 <= j < Z.of_nat n) as Hjn.
  { apply Hord. apply py_index_nat in Hj. by eapply list_elem_of_lookup_2. }
  unfold triangle_after_draw.
  by rewrite triangle_puzcard_take, triangle_angle_take.
Qed.

Lemma square_step_take ss ps ntc ord so po n i x s w :
  (forall j, j ∈ ord -> 0 <= j < Z.of_nat n) -> (i < n)%nat ->
  square_step ss ps ntc ord (take n so) (take n po) i x s w
  = square_step ss ps ntc ord so po i x s w.
Proof.
  intros Hord Hi.
  change (bind (lift (py_index ord (Z.of_nat i)))
            (fun j => bind (randint 0 3)
               (fun rot => square_after_draw ss ps ntc (take n so)
                             (take n po) i x s j rot)) w
          = bind (lift (py_index ord (Z.of_nat i)))
              (fun j => bind (randint 0 3)
                 (fun rot => square_after_draw ss ps ntc so po i x s j rot))
              w).
  destruct (py_index ord (Z.of_nat i)) as [j|e] eqn:Hj; [|reflexivity].
  rewrite !bind_lift_ok. unfold bind.
  destruct (randint 0 3 w) as [[rot|e] w1]; [|reflexivity].
  assert (0 <= j < Z.of_nat n) as Hjn.
  { apply Hord. apply py_index_nat in Hj. by eapply list_elem_of_lookup_2. }
  unfold square_after_draw.
  by rewrite square_puzcard_take, square_angle_take.
Qed.

Lemma bind_cong {A B} (m1 m2 : M A) (f : A -> M B) w :
  m1 w = m2 w -> bind m1 f w = bind m2 f w.
Proof. unfold bind. by intros ->. Qed.

(** [make_triangles] never reads an orientation entry beyond the number
    of cards. *)
Lemma make_triangles_trim data layout pairs edges w :
  make_triangles data (trim_triangle_tables layout) pairs edges w
  = make_triangles data layout pairs edges w.
Proof.
  unfold make_triangles, trim_triangle_tables. cbn -[getopt].
  destruct (triangleSolutionCards layout) as [cards|]; [|reflexivity].
  cbn [layout_key default]. rewrite !bind_ret.
  destruct (resolve_cards pairs edges cards) as [rings|e] eqn:Hrings;
    [|reflexivity].
  rewrite !bind_lift_ok.
  destruct (triangleSolutionOrientation layout) as [so|]; [|reflexivity].
  destruct (trianglePuzzleOrientation layout) as [po|]; [|reflexivity].
  cbn [fmap option_fmap option_map layout_key]. rewrite !bind_ret.
  destruct (shuffle_spec (py_range (length cards)) w)
    as (ord & w1 & Hsh & Hperm & _).
  rewrite !(bind_step _ _ _ _ _ Hsh).
  apply bind_cong. apply for_enumerate_ext. intros k x s w2 Hk.
  apply triangle_step_take.
  - intros j Hj. rewrite Hperm in Hj. by apply elem_of_py_range in Hj.
  - apply resolve_cards_length in Hrings. simpl. lia.
Qed.

Lemma make_squares_trim data layout pairs edges w :
  make_squares data (trim_square_tables layout) pairs edges w
  = make_squares data layout pairs edges w.
Proof.
  unfold make_squares, trim_square_tables. cbn -[getopt].
  destruct (triangleSolutionCards layout) as [tcards|]; [|reflexivity].
  cbn [layout_key]. rewrite !bind_ret.
  destruct (squareSolutionCards layout) as [cards|]; [|reflexivity].
  cbn [layout_key default]. rewrite !bind_ret.
  destruct (resolve_cards pairs edges cards) as [rings|e] eqn:Hrings;
    [|reflexivity].
  rewrite !bind_lift_ok.
  destruct (squareSolutionOrientation layout) as [so|]; [|reflexivity].
  destruct (squarePuzzleOrientation layout) as [po|]; [|reflexivity].
  cbn [fmap option_fmap option_map layout_key]. rewrite !bind_ret.
  destruct (shuffle_spec (py_range (length cards)) w)
    as (ord & w1 & Hsh & Hperm & _).
  rewrite !(bind_step _ _ _ _ _ Hsh).
  apply bind_cong. apply for_enumerate_ext. intros k x s w2 Hk.
  apply square_step_take.
  - intros j Hj. rewrite Hperm in Hj. by apply elem_of_py_range in Hj.
  - apply resolve_cards_length in Hrings. simpl. lia.
Qed.

(** C5: the sizes are not compared.  With more orientation entries than
    cards the run completes; with fewer, it raises inside the loop, after
    a draw. *)
Lemma table_size_is_not_checked :
  is_ok (fst (make_triangles ∅ long_tables_layout demo_pairs demo_edges
                (fresh_world [0%nat]))) = true
  /\ fst (make_triangles ∅ short_tables_layout demo_pairs demo_edges
            (fresh_world [0%nat])) = Raise IndexError
  /\ draws (snd (make_triangles ∅ short_tables_layout demo_pairs demo_edges
                   (fresh_world [0%nat]))) = 1%nat.
Proof. split_and!; vm_compute; reflexivity. Qed.

(** C5 (as amended).  When the cards of a shape can be read and one of
    its orientation tables has fewer entries than there are cards, the
    run raises an exception, and by then the order and at least one
    rotation have been drawn: as many draws as there are cards.  Entries
    beyond the number of cards are ignored: the run is the one over the
    tables cut to that number. *)
Theorem short_orientation_table_aborts data layout pairs edges w :
  (forall cards rings solorient puzorient,
     triangleSolutionCards layout = Some cards ->
     resolve_cards pairs edges cards = Ok rings ->
     triangleSolutionOrientation layout = Some solorient ->
     trianglePuzzleOrientation layout = Some puzorient ->
     (length solorient < length cards
      \/ length puzorient < length cards)%nat ->
     exists e w',
       make_triangles data layout pairs edges w = (Raise e, w')
       /\ (draws w + length cards <= draws w')%nat)
  /\ (forall tcards cards rings solorient puzorient,
        triangleSolutionCards layout = Some tcards ->
        squareSolutionCards layout = Some cards ->
        resolve_cards pairs edges cards = Ok rings ->
        squareSolutionOrientation layout = Some solorient ->
        squarePuzzleOrientation layout = Some puzorient ->
        (length solorient < length cards
         \/ length puzorient < length cards)%nat ->
        exists e w',
          make_squares data layout pairs edges w = (Raise e, w')
          /\ (draws w + length cards <= draws w')%nat)
  /\ make_triangles data (trim_triangle_tables layout) pairs edges w
     = make_triangles data layout pairs edges w
  /\ make_squares data (trim_square_tables layout) pairs edges w
     = make_squares data layout pairs edges w.
Proof.
  split_and!; [| |apply make_triangles_trim|apply make_squares_trim].
  - intros cards rings so po Hc Hrings Hso Hpo Hshort.
    pose proof (make_triangles_draws data layout pairs edges w
                  cards rings so po Hc Hrings Hso Hpo ltac:(lia)) as Hd.
    destruct (make_triangles data layout pairs edges w) as [[r|e] w'] eqn:Hrun.
    + pose proof (triangle_tables_cover_cards _ _ _ _ _ _ _ _ _ _
                    Hrun Hc Hso Hpo). lia.
    + by exists e, w'.
  - intros tcards cards rings so po Htc Hc Hrings Hso Hpo Hshort.
    pose proof (make_squares_draws data layout pairs edges w
                  tcards cards rings so po Htc Hc Hrings Hso Hpo ltac:(lia))
      as Hd.
    destruct (make_squares data layout pairs edges w) as [[r|e] w'] eqn:Hrun.
    + pose proof (square_tables_cover_cards _ _ _ _ _ _ _ _ _ _
                    Hrun Hc Hso Hpo). lia.
    + by exists e, w'.
Qed.

Lemma short_orientation_table_aborts_witness :
  exists e w',
    make_triangles ∅ short_tables_layout demo_pairs demo_edges
      (fresh_world [0%nat]) = (Raise e, w')
    /\ (draws (fresh_world [0%nat]) + 1 <= draws w')%nat.
Proof.
  destruct (short_orientation_table_aborts ∅ short_tables_layout demo_pairs
              demo_edges (fresh_world [0%nat])) as (Ht & _).
  apply (Ht [["Q1"; "A1"; "E1"]]%string
            [[CEntry (str_entry "Q1"); CEntry (str_entry "A1");
              CEntry (str_entry "E1")]] [] []);
    [reflexivity | reflexivity | reflexivity | reflexivity | simpl; lia].
Defined.

(** ** References of an unknown kind *)

(** The last branch of the chain calls a name that does not exist. *)
Lemma resolve_ref_unknown_kind pairs edges ref c n :
  str_head ref = Ok c -> int_of_string (str_tail ref) = Ok n ->
  Ascii.eqb c "Q" = false -> Ascii.eqb c "A" = false ->
  Ascii.eqb c "E" = false ->
  resolve_ref pairs edges ref = Raise (NameError "printf").
Proof.
  intros Hc Hn HQ HA HE. unfold resolve_ref.
  rewrite Hn, Hc. simpl. by rewrite HQ, HA, HE.
Qed.

(** C6: what the code does with a reference of an unknown kind.  The run
    stops on the undefined name [printf]; no diagnostic is written and no
    card is produced. *)
Theorem unknown_kind_raises :
  make_triangles ∅ unknown_kind_layout demo_pairs demo_edges
    (fresh_world [0; 0]%nat)
  = (Raise (NameError "printf"), fresh_world [0; 0]%nat)
  /\ make_squares ∅ unknown_kind_layout demo_pairs demo_edges
       (fresh_world [0; 0]%nat)
     = (Raise (NameError "printf"), fresh_world [0; 0]%nat).
Proof. split; vm_compute; reflexivity. Qed.

Lemma solution_angle_range_witness :
  exists a,
    solcards (locals_of (make_squares ∅ demo_layout demo_pairs demo_edges
                           (fresh_world [1%nat]))) !! 0%nat
    = Some (scenario_ring ++ [CStr (cardnum (0 + 3 + 1)); CNum a])
    /\ -180 <= a < 180.
Proof.
  pose (run := make_squares ∅ demo_layout demo_pairs demo_edges
                 (fresh_world [1%nat])).
  assert (make_squares ∅ demo_layout demo_pairs demo_edges
            (fresh_world [1%nat])
          = (Ok (locals_of run), snd run)) as Hrun
    by (vm_compute; reflexivity).
  destruct (solution_angle_range ∅ demo_layout demo_pairs demo_edges
              (fresh_world [1%nat]) (locals_of run) (snd run))
    as (_ & _ & Hs).
  destruct (Hs Hrun)
    as (tc & cards & rings & so & po & Htc & Hc & Hrings & _ & _ & _ & Hall).
  injection Htc as <-. injection Hc as <-.
  vm_compute in Hrings. injection Hrings as <-.
  destruct (Hall 0%nat scenario_ring eq_refl)
    as (j & rot & n & s & b & Ho & _ & _ & _ & _ & Hcard & Hrange).
  vm_compute in Ho. injection Ho as <-.
  eexists. split; [exact Hcard | exact Hrange].
Defined.
